(** * BertSummarizer: chunking, extractive selection and orchestration

    A shallow embedding of [SBCoding/text_summarizer.py], followed by the
    vocabulary logic of [Tokenizer.py], the text extraction of
    [JSON_scrapper.py] and [get_top_terms] of [Vectorizer.py].  Python
    strings are [string] (the proofs use of the alphabet only that ['.'] and
    [' '] are two of its characters), Python ints are [Z], finite Python
    floats are the rationals they denote (every finite binary64 value is a
    rational) with the rounding of an arithmetic result left as a function
    [fl]; the compression ratio, which the caller chooses, is a [pyfloat]:
    a finite value, an infinity or NaN.  The BERT encoder, k-means, the
    cosine of two tensors and the summarization pipeline are capabilities:
    they are the fields of the record [BertSummarizer], the [self] of the
    methods; torch's check of the type of its arguments is part of the
    model.  A method returns its value or its exception together with the
    capability calls and log records it made. *)

From Stdlib Require Import String Ascii List ZArith QArith Qround Bool Lia.
From Stdlib Require Import Permutation Sorted Qabs.
Import ListNotations.

Open Scope string_scope.
Open Scope list_scope.
Open Scope Z_scope.

(** ** Python string primitives *)

Module PyStr.

(** [len(s)] *)
Definition len (s : string) : Z := Z.of_nat (String.length s).

(** [sep.join(parts)] *)
Definition join (sep : string) (parts : list string) : string :=
  String.concat sep parts.

(** The sentence delimiter used by the chunker and by the orchestrator. *)
Definition delim : string := ". ".

(** [s.split('. ')], as a non-empty list: the piece before the first
    delimiter and the pieces after it.  The scan is left to right and the
    occurrences do not overlap, as in Python. *)
Fixpoint split_pieces (s : string) : string * list string :=
  match s with
  | EmptyString => (EmptyString, [])
  | String c s' =>
      match s' with
      | String d rest =>
          if Ascii.eqb c "." && Ascii.eqb d " "
          then let '(p, ps) := split_pieces rest in (EmptyString, p :: ps)
          else let '(p, ps) := split_pieces s' in (String c p, ps)
      | EmptyString => (String c EmptyString, [])
      end
  end.

Definition split (s : string) : list string :=
  let '(p, ps) := split_pieces s in p :: ps.

(** [delim in s] *)
Fixpoint has_delim (s : string) : bool :=
  match s with
  | EmptyString => false
  | String c s' =>
      match s' with
      | String d _ => (Ascii.eqb c "." && Ascii.eqb d " ") || has_delim s'
      | EmptyString => false
      end
  end.

(** [s[:-1]] *)
Fixpoint drop_last (s : string) : string :=
  match s with
  | EmptyString => EmptyString
  | String c EmptyString => EmptyString
  | String c s' => String c (drop_last s')
  end.

(** [s.endswith(c)] for a single character. *)
Fixpoint ends_with (c : ascii) (s : string) : bool :=
  match s with
  | EmptyString => false
  | String d EmptyString => Ascii.eqb d c
  | String _ s' => ends_with c s'
  end.

(** [a in b] for strings. *)
Fixpoint is_substring (a b : string) : bool :=
  if String.prefix a b then true
  else match b with
       | EmptyString => false
       | String _ b' => is_substring a b'
       end.

End PyStr.

(** ** The chunker, [BertSummarizer._chunk_text] *)

(** The loop variables of [_chunk_text]. *)
Record chunker_state : Type := mkChunker {
  chunks : list string;
  current_chunk : list string;
  current_length : Z
}.

Definition chunker_init : chunker_state :=
  {| chunks := []; current_chunk := []; current_length := 0 |}.

(** Truth value of a Python list. *)
Definition truthy {A : Type} (l : list A) : bool :=
  match l with [] => false | _ :: _ => true end.

(** ['. '.join(current_chunk) + '.'] *)
Definition flush (current : list string) : string :=
  (PyStr.join PyStr.delim current ++ ".")%string.

(** One iteration of [for sentence in sentences]. *)
Definition chunk_step (max_chunk_size : Z) (st : chunker_state) (sentence : string)
  : chunker_state :=
  let sentence_length := PyStr.len sentence in
  if current_length st + sentence_length >? max_chunk_size then
    if truthy (current_chunk st) then
      {| chunks := chunks st ++ [flush (current_chunk st)];
         current_chunk := [sentence];
         current_length := sentence_length |}
    else
      {| chunks := chunks st ++ [(sentence ++ ".")%string];
         current_chunk := current_chunk st;
         current_length := current_length st |}
  else
    {| chunks := chunks st;
       current_chunk := current_chunk st ++ [sentence];
       current_length := current_length st + sentence_length |}.

Definition chunk_finish (st : chunker_state) : list string :=
  if truthy (current_chunk st)
  then chunks st ++ [flush (current_chunk st)]
  else chunks st.

Definition _chunk_text (text : string) (max_chunk_size : Z) : list string :=
  let sentences := PyStr.split text in
  chunk_finish (fold_left (chunk_step max_chunk_size) sentences chunker_init).

(** ** Exceptions, results and the effects of a call *)

(** The exceptions the pipeline can meet.  [OtherError] stands for whatever a
    capability (tokenizer, encoder, k-means, summarization pipeline) raises. *)
Inductive exn : Type :=
| ZeroDivisionError
| IndexError (msg : string)
| RuntimeError (msg : string)
| TypeError (msg : string)
| OverflowError (msg : string)
| ValueError (msg : string)
| OtherError (msg : string).

(** [str(e)] *)
Definition str (e : exn) : string :=
  match e with
  | ZeroDivisionError => "division by zero"
  | IndexError msg | RuntimeError msg | TypeError msg
  | OverflowError msg | ValueError msg | OtherError msg => msg
  end.

Inductive result (A : Type) : Type :=
| Ok (a : A)
| Raise (e : exn).
Arguments Ok {A} a.
Arguments Raise {A} e.

(** What a call does besides computing: it invokes capabilities and logs. *)
Inductive event : Type :=
| CallBert (sentence : string)
| CallKMeans (n_clusters : Z)
| CallSummarizer (text : string)
| LogError (msg : string).

(** A computation yields a value or an exception, and the events it emitted
    up to that point. *)
Definition M (A : Type) : Type := (result A * list event)%type.

Definition ret {A : Type} (a : A) : M A := (Ok a, []).

Definition raise {A : Type} (e : exn) : M A := (Raise e, []).

Definition bind {A B : Type} (m : M A) (f : A -> M B) : M B :=
  match m with
  | (Ok a, w) => let '(r, w') := f a in (r, w ++ w')
  | (Raise e, w) => (Raise e, w)
  end.

Definition lift {A : Type} (r : result A) : M A := (r, []).

Definition call {A : Type} (ev : event) (r : result A) : M A := (r, [ev]).

Definition emit (ev : event) : M unit := (Ok tt, [ev]).

(** [try: body / except Exception as e: handler e] *)
Definition try_except {A : Type} (body : M A) (handler : exn -> M A) : M A :=
  match body with
  | (Ok a, w) => (Ok a, w)
  | (Raise e, w) => let '(r, w') := handler e in (r, w ++ w')
  end.

Notation "x <- m ;; k" := (bind m (fun x => k))
  (at level 61, m at next level, right associativity).
Notation "m ;;; k" := (bind m (fun _ => k))
  (at level 61, right associativity).

(** [for x in items: acc = body acc x] *)
Fixpoint for_each {A S : Type} (body : S -> A -> M S) (items : list A) (acc : S)
  : M S :=
  match items with
  | [] => ret acc
  | x :: rest => acc' <- body acc x ;; for_each body rest acc'
  end.

(** ** Python list and tensor primitives *)

(** [l[i]], with Python's negative indices. *)
Definition py_index {A : Type} (l : list A) (i : Z) : result A :=
  let n := Z.of_nat (length l) in
  let j := if i <? 0 then n + i else i in
  if (j <? 0) || (n <=? j) then Raise (IndexError "index out of range")
  else match nth_error l (Z.to_nat j) with
       | Some a => Ok a
       | None => Raise (IndexError "index out of range")
       end.

(** [[x for j, x in enumerate(items) if clusters[j] == i]]: reading
    [clusters[j]] past its end raises. *)
Fixpoint filter_by_label {A : Type} (items : list A) (clusters : list Z) (i : Z)
  : result (list A) :=
  match items with
  | [] => Ok []
  | x :: items' =>
      match clusters with
      | [] => Raise (IndexError "index out of bounds")
      | c :: clusters' =>
          match filter_by_label items' clusters' i with
          | Ok r => Ok (if c =? i then x :: r else r)
          | Raise e => Raise e
          end
      end
  end.

(** [rows[clusters == i]]: a boolean mask must have as many entries as the
    tensor has rows. *)
Definition mask_index {A : Type} (rows : list A) (clusters : list Z) (i : Z)
  : result (list A) :=
  if Nat.eqb (length rows) (length clusters)
  then filter_by_label rows clusters i
  else Raise (IndexError "mask shape mismatch").

(** [range(n)] *)
Definition range (n : Z) : list Z := map Z.of_nat (seq 0 (Z.to_nat n)).

(** [t.argmax()] of a non-empty vector: the index of the first maximal
    value. *)
Fixpoint argmax_from (best : Q) (best_idx idx : nat) (l : list Q) : nat :=
  match l with
  | [] => best_idx
  | x :: r =>
      if Qle_bool x best
      then argmax_from best best_idx (S idx) r
      else argmax_from x idx (S idx) r
  end.

Definition argmax (l : list Q) : nat :=
  match l with
  | [] => 0%nat
  | x :: r => argmax_from x 0 1 r
  end.

(** [int(x)] of a float: truncation toward zero. *)
Definition int_of_float (x : Q) : Z := Z.quot (Qnum x) (Zpos (Qden x)).

(** A Python float: a finite binary64 value, an infinity or NaN. *)
Inductive pyfloat : Type :=
| Finite (q : Q)
| PosInf
| NegInf
| NaN.

(** The least magnitude that rounds to an infinity in binary64: half an ulp
    above the largest finite value. *)
Definition float_overflow : Z := 2 ^ 1024 - 2 ^ 970.

(** [int(x)] of any float: infinities and NaN cannot be converted. *)
Definition int_of_pyfloat (x : pyfloat) : result Z :=
  match x with
  | Finite q => Ok (int_of_float q)
  | PosInf | NegInf =>
      Raise (OverflowError "cannot convert float infinity to integer")
  | NaN => Raise (ValueError "cannot convert float NaN to integer")
  end.

(** ** The summarizer object *)

(** The instance [self] and the library entry points the methods use.
    [bert_cls] is the tokenizer followed by the encoder and the selection of
    the [CLS] row; [KMeans n_clusters rows] is [KMeans(n_clusters,
    random_state=42)] followed by [fit_predict], giving the labels and
    [cluster_centers_]; [summarizer text max_length min_length] is the
    pipeline call with [do_sample=False], projected on [summary_text];
    [cosine_of_tensors] is what torch computes for two tensors; [fl] rounds
    an exact result within the binary64 range to the float the machine
    returns. *)
Record BertSummarizer : Type := {
  Emb : Type;
  Centroid : Type;
  max_length : Z;
  min_length : Z;
  bert_cls : string -> result Emb;
  summarizer : string -> Z -> Z -> result string;
  KMeans : Z -> list Emb -> result (list Z * list Centroid);
  cosine_of_tensors : Emb -> Emb -> Q;
  fl : Q -> Q
}.

(** The dictionary [summarize] returns. *)
Inductive Metadata : Type :=
| Stats (original_length summary_length : Z) (compression_ratio : Q)
        (num_chunks : Z)
| ErrorInfo (error : string).

Record SummaryResult : Type := {
  summary : string;
  metadata : Metadata
}.

Section Methods.

Variable self : BertSummarizer.

(** [torch.cat(embeddings, dim=0)] refuses an empty list. *)
Definition torch_cat (rows : list (Emb self)) : M (list (Emb self)) :=
  match rows with
  | [] => raise (RuntimeError "torch.cat(): expected a non-empty list of Tensors")
  | _ :: _ => ret rows
  end.

Definition _get_sentence_embeddings (sentences : list string)
  : M (list (Emb self)) :=
  embeddings <-
    for_each (fun embeddings sentence =>
                sentence_embedding <- call (CallBert sentence) (bert_cls self sentence) ;;
                ret (embeddings ++ [sentence_embedding]))
             sentences [] ;;
  torch_cat embeddings.

(** What the code hands to torch: a row of [kmeans.cluster_centers_] is a
    numpy array, a row of the embeddings is a tensor. *)
Inductive array : Type :=
| Ndarray (center : Centroid self)
| Tensor (row : Emb self).

(** [torch.nn.functional.cosine_similarity(x1, x2)]: its arguments must be
    tensors; a numpy array is not converted. *)
Definition cosine_similarity (x1 : array) (x2 : list (Emb self))
  : result (list Q) :=
  match x1 with
  | Ndarray _ =>
      Raise (TypeError "cosine_similarity(): argument 'x1' (position 1) must be Tensor, not numpy.ndarray")
  | Tensor t => Ok (map (cosine_of_tensors self t) x2)
  end.

(** The body of [for i in range(num_sentences)]. *)
Definition select_from_cluster (sentences : list string)
    (embeddings : list (Emb self)) (clusters : list Z)
    (cluster_centers_ : list (Centroid self))
    (important_sentences : list string) (i : Z) : M (list string) :=
  cluster_sentences <- lift (filter_by_label sentences clusters i) ;;
  cluster_embeddings <- lift (mask_index embeddings clusters i) ;;
  if 0 <? Z.of_nat (length cluster_sentences) then
    center <- lift (py_index cluster_centers_ i) ;;
    center_distances <-
      lift (cosine_similarity (Ndarray center) cluster_embeddings) ;;
    let best_idx := argmax center_distances in
    best <- lift (py_index cluster_sentences (Z.of_nat best_idx)) ;;
    ret (important_sentences ++ [best])
  else ret important_sentences.

Definition _select_important_sentences (sentences : list string)
    (embeddings : list (Emb self)) (num_sentences : Z) : M (list string) :=
  if Z.of_nat (length sentences) <=? num_sentences then ret sentences
  else
    fitted <- call (CallKMeans num_sentences) (KMeans self num_sentences embeddings) ;;
    let '(clusters, cluster_centers_) := fitted in
    for_each (select_from_cluster sentences embeddings clusters cluster_centers_)
             (range num_sentences) [].

(** [max(1, int(len(sentences) * compression_ratio))] when the product is
    a finite float. *)
Definition target_count (n : Z) (compression_ratio : Q) : Z :=
  Z.max 1 (int_of_float (fl self (inject_Z n * compression_ratio)%Q)).

(** The float for an exact result: an infinity from [float_overflow] on. *)
Definition round_float (x : Q) : pyfloat :=
  if Qle_bool (inject_Z float_overflow) (Qabs x)
  then (if Qle_bool 0 x then PosInf else NegInf)
  else Finite (fl self x).

(** [n * x] for an int [n] and a float [x]. *)
Definition int_times_float (n : Z) (x : pyfloat) : pyfloat :=
  match x with
  | Finite q => round_float (inject_Z n * q)%Q
  | PosInf => if 0 <? n then PosInf else if n =? 0 then NaN else NegInf
  | NegInf => if 0 <? n then NegInf else if n =? 0 then NaN else PosInf
  | NaN => NaN
  end.

(** [max(1, int(len(sentences) * compression_ratio))]: [int] raises on an
    infinite or NaN product. *)
Definition num_sentences_of (n : Z) (compression_ratio : pyfloat) : result Z :=
  match int_of_pyfloat (int_times_float n compression_ratio) with
  | Ok k => Ok (Z.max 1 k)
  | Raise e => Raise e
  end.

(** The body of [for chunk in chunks]. *)
Definition summarize_chunk (compression_ratio : pyfloat)
    (all_summaries : list string) (chunk : string) : M (list string) :=
  let sentences := PyStr.split chunk in
  embeddings <- _get_sentence_embeddings sentences ;;
  num_sentences <-
    lift (num_sentences_of (Z.of_nat (length sentences)) compression_ratio) ;;
  important_sentences <-
    _select_important_sentences sentences embeddings num_sentences ;;
  let extractive_summary := PyStr.join " " important_sentences in
  abstractive_summary <-
    call (CallSummarizer extractive_summary)
         (summarizer self extractive_summary (max_length self) (min_length self)) ;;
  ret (all_summaries ++ [abstractive_summary]).

(** [a / b] on ints: true division. *)
Definition true_div (a b : Z) : M Q :=
  if b =? 0 then raise ZeroDivisionError
  else ret (fl self (inject_Z a / inject_Z b)%Q).

Definition summarize_body (text : string) (compression_ratio : pyfloat)
  : M SummaryResult :=
  let chunks := _chunk_text text 512 in
  all_summaries <- for_each (summarize_chunk compression_ratio) chunks [] ;;
  let final_summary := PyStr.join " " all_summaries in
  ratio <- true_div (PyStr.len final_summary) (PyStr.len text) ;;
  ret {| summary := final_summary;
         metadata := Stats (PyStr.len text) (PyStr.len final_summary) ratio
                       (Z.of_nat (length chunks)) |}.

Definition summarize_handler (e : exn) : M SummaryResult :=
  emit (LogError ("Error during summarization: " ++ str e)%string) ;;;
  ret {| summary := ""; metadata := ErrorInfo (str e) |}.

Definition summarize (text : string) (compression_ratio : pyfloat)
  : M SummaryResult :=
  try_except (summarize_body text compression_ratio) summarize_handler.

End Methods.

(** ** A small instance, for running the methods

    Embeddings and centroids are integers: a sentence is embedded as its
    length, k-means labels a row by its value modulo the cluster count, the
    similarity of a row to a tensor is the row itself, and the compressor
    returns its input. *)
Module Toy.

Definition labels (n_clusters : Z) (rows : list Z) : list Z :=
  map (fun e => e mod n_clusters) rows.

Definition self : BertSummarizer := {|
  Emb := Z;
  Centroid := Z;
  max_length := 130;
  min_length := 30;
  bert_cls := fun s => Ok (PyStr.len s);
  summarizer := fun text _ _ => Ok text;
  KMeans := fun k rows => Ok (labels k rows, range k);
  cosine_of_tensors := fun _ e => inject_Z e;
  fl := fun q => q
|}.

(** An instance whose encoder refuses one sentence. *)
Definition failing_on (bad : string) : BertSummarizer := {|
  Emb := Z;
  Centroid := Z;
  max_length := 130;
  min_length := 30;
  bert_cls := fun s => if String.eqb s bad
                       then Raise (OtherError "encoder unavailable")
                       else Ok (PyStr.len s);
  summarizer := fun text _ _ => Ok text;
  KMeans := fun k rows => Ok (labels k rows, range k);
  cosine_of_tensors := fun _ e => inject_Z e;
  fl := fun q => q
|}.

End Toy.

(** ** Dictionaries in insertion order

    A Python [dict] as the list of its items, in the order the keys were
    first inserted; assigning to a key already there keeps its place. *)
Section Dict.

Context {K V : Type} (eqb : K -> K -> bool).

(** [d.get(k)] *)
Fixpoint dict_get (d : list (K * V)) (k : K) : option V :=
  match d with
  | [] => None
  | (k', v) :: rest => if eqb k' k then Some v else dict_get rest k
  end.

(** [d[k] = v] *)
Fixpoint dict_set (d : list (K * V)) (k : K) (v : V) : list (K * V) :=
  match d with
  | [] => [(k, v)]
  | (k', v') :: rest =>
      if eqb k' k then (k', v) :: rest else (k', v') :: dict_set rest k v
  end.

(** [{k: v for k, v in items}] *)
Definition dict_of_items (items : list (K * V)) : list (K * V) :=
  fold_left (fun d kv => dict_set d (fst kv) (snd kv)) items [].

End Dict.

(** ** The tokenizer, [Tokenizer.py] *)

Module Tokenizer.

(** The attributes of a [TextTokenizer]. *)
Record TextTokenizer : Type := {
  min_freq : Z;
  max_vocab : Z;
  stop_words : list string;
  vocab : list (string * Z);
  rev_vocab : list (Z * string);
  word_freqs : list (string * Z)
}.

(** [__init__]: [stop_words or set()] turns [None] into the empty set. *)
Definition init (min_freq max_vocab : Z) (stop_words : option (list string))
  : TextTokenizer :=
  {| min_freq := min_freq;
     max_vocab := max_vocab;
     stop_words := match stop_words with Some ws => ws | None => [] end;
     vocab := [];
     rev_vocab := [];
     word_freqs := [] |}.

(** One step of [Counter.update]: the count of [token] goes up by one. *)
Definition counter_add (c : list (string * Z)) (token : string)
  : list (string * Z) :=
  dict_set String.eqb c token
           (match dict_get String.eqb c token with
            | Some n => n + 1
            | None => 1
            end).

(** [Counter.update(tokens)] *)
Definition counter_update (c : list (string * Z)) (tokens : list string)
  : list (string * Z) :=
  fold_left counter_add tokens c.

(** [Counter.most_common()] is [sorted(items, key=count, reverse=True)], a
    stable sort: larger counts first, equal counts in insertion order.  A
    stable sort has one result; it is computed here by insertion. *)
Fixpoint insert_by_count (x : string * Z) (l : list (string * Z))
  : list (string * Z) :=
  match l with
  | [] => [x]
  | y :: r => if snd x <? snd y then y :: insert_by_count x r else x :: y :: r
  end.

Definition most_common (c : list (string * Z)) : list (string * Z) :=
  fold_right insert_by_count [] c.

(** [l[:n]] *)
Definition slice_to {A : Type} (l : list A) (n : Z) : list A :=
  if n <? 0 then firstn (Z.to_nat (Z.of_nat (length l) + n)) l
  else firstn (Z.to_nat n) l.

(** [enumerate(l, start)] *)
Fixpoint enumerate {A : Type} (l : list A) (start : Z) : list (Z * A) :=
  match l with
  | [] => []
  | x :: r => (start, x) :: enumerate r (start + 1)
  end.

(** [word in stop_words] *)
Definition is_stop_word (self : TextTokenizer) (word : string) : bool :=
  existsb (String.eqb word) (stop_words self).

Section Methods.

(** [nltk.tokenize.word_tokenize] *)
Variable word_tokenize : string -> list string.

Definition filtered_words (self : TextTokenizer) (freqs : list (string * Z))
  : list string :=
  map fst (filter (fun wf => (min_freq self <=? snd wf)
                             && negb (is_stop_word self (fst wf)))
                  (most_common freqs)).

Definition build_vocab (self : TextTokenizer) (texts : list string)
  : TextTokenizer :=
  let word_freqs' :=
    fold_left (fun c text => counter_update c (word_tokenize text))
              texts (word_freqs self) in
  let vocab_words := slice_to (filtered_words self word_freqs') (max_vocab self) in
  let vocab0 :=
    dict_of_items String.eqb
      (map (fun iw => (snd iw, fst iw)) (enumerate vocab_words 1)) in
  let vocab' := dict_set String.eqb vocab0 "<UNK>" 0 in
  let rev_vocab' :=
    dict_of_items Z.eqb (map (fun wi => (snd wi, fst wi)) vocab') in
  {| min_freq := min_freq self;
     max_vocab := max_vocab self;
     stop_words := stop_words self;
     vocab := vocab';
     rev_vocab := rev_vocab';
     word_freqs := word_freqs' |}.

Definition tokenize (self : TextTokenizer) (text : string) : list Z :=
  map (fun token => match dict_get String.eqb (vocab self) token with
                    | Some idx => idx
                    | None => 0
                    end)
      (word_tokenize text).

Definition decode (self : TextTokenizer) (token_ids : list Z) : string :=
  PyStr.join " "
    (map (fun idx => match dict_get Z.eqb (rev_vocab self) idx with
                     | Some word => word
                     | None => "<UNK>"
                     end)
         token_ids).

Definition get_vocab_size (self : TextTokenizer) : Z :=
  Z.of_nat (length (vocab self)).

End Methods.

(** A tokenizer on words separated by single spaces, for running the
    methods. *)
Fixpoint words_from (current : string) (s : string) : list string :=
  match s with
  | EmptyString => match current with EmptyString => [] | _ => [current] end
  | String c s' =>
      if Ascii.eqb c " "
      then match current with
           | EmptyString => words_from EmptyString s'
           | _ => current :: words_from EmptyString s'
           end
      else words_from (current ++ String c EmptyString)%string s'
  end.

Definition space_tokenize (s : string) : list string := words_from "" s.

End Tokenizer.

(** ** The JSON scraper, [JSON_scrapper.py]: the text extraction *)

Module JsonScraper.

(** What [json.load] returns: [None], booleans, numbers, strings, lists and
    dicts, the latter with their items in document order. *)
#[warnings="-register-all"]
Inductive json : Type :=
| JNull
| JBool (b : bool)
| JNumber (q : Q)
| JString (s : string)
| JArray (items : list json)
| JObject (items : list (string * json)).

(** [fields is None or key in fields] *)
Definition selected (fields : option (list string)) (key : string) : bool :=
  match fields with
  | None => true
  | Some names => existsb (String.eqb key) names
  end.

(** The local function [extract_text] of [scrape_json]. *)
Fixpoint extract_text (obj : json) (fields : option (list string))
  : list string :=
  match obj with
  | JObject items =>
      (fix over_items (items : list (string * json)) : list string :=
         match items with
         | [] => []
         | (key, value) :: rest =>
             (if selected fields key then
                match value with
                | JString s => [s]
                | JObject _ | JArray _ => extract_text value fields
                | JNull | JBool _ | JNumber _ => []
                end
              else [])
             ++ over_items rest
         end) items
  | JArray items =>
      (fix over_list (items : list json) : list string :=
         match items with
         | [] => []
         | item :: rest => extract_text item fields ++ over_list rest
         end) items
  | JNull | JBool _ | JNumber _ | JString _ => []
  end.

End JsonScraper.

(** ** The vectorizer, [Vectorizer.py] *)

Module Vectorizer.

(** [l[a:]] *)
Definition slice_from {A : Type} (l : list A) (a : Z) : list A :=
  let len := Z.of_nat (length l) in
  let start := if a <? 0 then Z.max (len + a) 0 else Z.min a len in
  skipn (Z.to_nat start) l.

(** [x > 0] on floats *)
Definition positive (x : Q) : bool := negb (Qle_bool x 0).

Section Methods.

(** [self.tfidf.transform(texts).toarray()], which raises on a vectorizer
    that was not fitted, and [ndarray.argsort()]. *)
Variable tfidf_transform : list string -> result (list (list Q)).
Variable argsort : list Q -> list Z.

(** [self.feature_names], [None] until [fit] is called. *)
Variable feature_names : option (list string).

Definition transform (texts : list string) : M (list (list Q)) :=
  lift (tfidf_transform texts).

(** [self.feature_names[i]] *)
Definition feature_name (i : Z) : result string :=
  match feature_names with
  | None => Raise (OtherError "'NoneType' object is not subscriptable")
  | Some names => py_index names i
  end.

(** One step of the comprehension
    [[(self.feature_names[i], vector[i]) for i in top_indices if vector[i] > 0]]. *)
Definition top_term_step (vector : list Q) (terms : list (string * Q)) (i : Z)
  : M (list (string * Q)) :=
  score <- lift (py_index vector i) ;;
  if positive score then
    name <- lift (feature_name i) ;;
    score' <- lift (py_index vector i) ;;
    ret (terms ++ [(name, score')])
  else ret terms.

Definition get_top_terms (text : string) (n : Z) : M (list (string * Q)) :=
  rows <- transform [text] ;;
  vector <- lift (py_index rows 0) ;;
  let top_indices := rev (slice_from (argsort vector) (- n)) in
  for_each (top_term_step vector) top_indices [].

End Methods.

End Vectorizer.

(** ** Specification vocabulary *)

(** The length the chunker counts for a run of sentences: the sentences,
    without the delimiters between them. *)
Definition sentences_length (group : list string) : Z :=
  fold_right (fun sentence n => PyStr.len sentence + n) 0 group.

(** A run of sentences the chunker may flush: it is not empty, and it is one
    sentence or its counted length is within the limit. *)
Definition within_budget (max_chunk_size : Z) (group : list string) : Prop :=
  group <> [] /\
  (length group = 1%nat \/ sentences_length group <= max_chunk_size).

(** The chunker's loop invariant: the chunks emitted so far are the flushed
    groups of a partition of the sentences already read, the buffer holding
    the sentences not yet flushed and [current_length] their counted
    length. *)
Definition chunk_inv (max_chunk_size : Z) (read : list string)
    (st : chunker_state) : Prop :=
  exists groups,
    chunks st = map flush groups /\
    concat groups ++ current_chunk st = read /\
    Forall (within_budget max_chunk_size) groups /\
    current_length st = sentences_length (current_chunk st) /\
    (current_chunk st = [] \/ within_budget max_chunk_size (current_chunk st)).

(** A stage of the pipeline fails on a chunk: the encoder refuses one of its
    sentences, or the embeddings and the target count are there and the
    selector raises, or the selection is there and the compressor raises. *)
Inductive stage_fails (self : BertSummarizer) (compression_ratio : pyfloat)
    (chunk : string) : Prop :=
| embedding_fails (sentence : string) (e : exn) :
    In sentence (PyStr.split chunk) ->
    bert_cls self sentence = Raise e ->
    stage_fails self compression_ratio chunk
| clustering_fails (embeddings : list (Emb self)) (w : list event)
    (num_sentences : Z) (e : exn) :
    _get_sentence_embeddings self (PyStr.split chunk) = (Ok embeddings, w) ->
    num_sentences_of self (Z.of_nat (length (PyStr.split chunk)))
                     compression_ratio = Ok num_sentences ->
    fst (_select_important_sentences self (PyStr.split chunk) embeddings
                                     num_sentences) = Raise e ->
    stage_fails self compression_ratio chunk
| compression_fails (embeddings : list (Emb self)) (w w' : list event)
    (num_sentences : Z) (important_sentences : list string) (e : exn) :
    _get_sentence_embeddings self (PyStr.split chunk) = (Ok embeddings, w) ->
    num_sentences_of self (Z.of_nat (length (PyStr.split chunk)))
                     compression_ratio = Ok num_sentences ->
    _select_important_sentences self (PyStr.split chunk) embeddings
                                num_sentences = (Ok important_sentences, w') ->
    summarizer self (PyStr.join " " important_sentences)
               (max_length self) (min_length self) = Raise e ->
    stage_fails self compression_ratio chunk.

(** What [str(e)] is for each exception: the description a failure
    dictionary carries. *)
Inductive describes : exn -> string -> Prop :=
| describes_zero_division : describes ZeroDivisionError "division by zero"
| describes_index (msg : string) : describes (IndexError msg) msg
| describes_runtime (msg : string) : describes (RuntimeError msg) msg
| describes_type (msg : string) : describes (TypeError msg) msg
| describes_overflow (msg : string) : describes (OverflowError msg) msg
| describes_value (msg : string) : describes (ValueError msg) msg
| describes_other (msg : string) : describes (OtherError msg) msg.


(** The message of the [TypeError] torch raises for a numpy centroid. *)
Definition centroid_type_error : exn :=
  TypeError "cosine_similarity(): argument 'x1' (position 1) must be Tensor, not numpy.ndarray".

(** The failure dictionary built by the handler of [summarize]. *)
Definition failure_result (e : exn) : SummaryResult :=
  {| summary := ""; metadata := ErrorInfo (str e) |}.

(** A sentence of 120 characters with no delimiter in it. *)
Definition sentence120 : string := string_of_list_ascii (repeat "a"%char 120).

(** A text of two sentences of 300 characters: two chunks at the default
    chunk size. *)
Definition two_chunk_text : string :=
  (string_of_list_ascii (repeat "a"%char 300) ++ ". "
   ++ string_of_list_ascii (repeat "b"%char 300))%string.

Definition second_chunk : string :=
  (string_of_list_ascii (repeat "b"%char 300) ++ ".")%string.

(** The next run starts with a sentence that did not fit after [group]. *)
Definition overflows (max_chunk_size : Z) (group next : list string) : Prop :=
  match next with
  | [] => True
  | sentence :: _ => max_chunk_size < sentences_length group + PyStr.len sentence
  end.

(** Every run was closed by a sentence that did not fit. *)
Fixpoint greedy (max_chunk_size : Z) (groups : list (list string)) : Prop :=
  match groups with
  | [] => True
  | g :: rest =>
      match rest with
      | [] => True
      | g' :: _ => overflows max_chunk_size g g'
      end /\ greedy max_chunk_size rest
  end.

(** The invariant of the chunker with the runs made explicit. *)
Definition chunk_runs (max_chunk_size : Z) (read : list string)
    (st : chunker_state) (groups : list (list string)) : Prop :=
  chunks st = map flush groups /\
  concat groups ++ current_chunk st = read /\
  Forall (fun g => g <> []) groups /\
  current_length st = sentences_length (current_chunk st) /\
  match current_chunk st with
  | [] => Forall (fun g => max_chunk_size < sentences_length g) groups
  | _ :: _ => greedy max_chunk_size (groups ++ [current_chunk st])
  end.

(** A log record, as opposed to a capability call. *)
Definition is_log (ev : event) : bool :=
  match ev with
  | LogError _ => true
  | CallBert _ | CallKMeans _ | CallSummarizer _ => false
  end.

(** The frequencies after [build_vocab]. *)
Definition freqs_after (word_tokenize : string -> list string)
    (self : Tokenizer.TextTokenizer) (texts : list string)
  : list (string * Z) :=
  fold_left (fun c text => Tokenizer.counter_update c (word_tokenize text))
            texts (Tokenizer.word_freqs self).

(** The words [build_vocab] numbers from 1. *)
Definition vocab_words (word_tokenize : string -> list string)
    (self : Tokenizer.TextTokenizer) (texts : list string) : list string :=
  Tokenizer.slice_to
    (Tokenizer.filtered_words self (freqs_after word_tokenize self texts))
    (Tokenizer.max_vocab self).

(** The numbered words, as items of the vocabulary. *)
Definition numbered (words : list string) : list (string * Z) :=
  map (fun iw => (snd iw, fst iw)) (Tokenizer.enumerate words 1).

(** [word in self.vocab] *)
Definition in_vocab (self : Tokenizer.TextTokenizer) (word : string) : bool :=
  match dict_get String.eqb (Tokenizer.vocab self) word with
  | Some _ => true
  | None => false
  end.

(** Larger counts first. *)
Definition by_count (x y : string * Z) : Prop := snd y <= snd x.

(** The contribution of one item of a dict to [extract_text]. *)
Definition item_text (fields : option (list string))
    (item : string * JsonScraper.json) : list string :=
  if JsonScraper.selected fields (fst item) then
    match snd item with
    | JsonScraper.JString s => [s]
    | JsonScraper.JObject _ | JsonScraper.JArray _ =>
        JsonScraper.extract_text (snd item) fields
    | _ => []
    end
  else [].

(** * Strings *)

Section StringFacts.

Lemma append_empty_r (s : string) : (s ++ "")%string = s.
Proof. induction s as [|c s IH]; simpl; congruence. Qed.

Lemma append_assoc (a b c : string) :
  ((a ++ b) ++ c)%string = (a ++ (b ++ c))%string.
Proof. induction a as [|x a IH]; simpl; congruence. Qed.

Lemma length_append (a b : string) :
  String.length (a ++ b) = (String.length a + String.length b)%nat.
Proof. induction a as [|x a IH]; simpl; congruence. Qed.

Lemma len_append_period (text : string) :
  PyStr.len (text ++ ".") = PyStr.len text + 1.
Proof. unfold PyStr.len. rewrite length_append. simpl. lia. Qed.

Lemma drop_last_append_char (s : string) (c : ascii) :
  PyStr.drop_last (s ++ String c "") = s.
Proof.
  induction s as [|x s IH]; simpl; [reflexivity|].
  rewrite IH. destruct s; reflexivity.
Qed.

Lemma ends_with_append_char (s : string) (c : ascii) :
  PyStr.ends_with c (s ++ String c "") = true.
Proof.
  induction s as [|x s IH]; simpl.
  - apply Ascii.eqb_refl.
  - rewrite IH. destruct s; reflexivity.
Qed.

Lemma split_pieces_cons (c : ascii) (s' : string) :
  PyStr.split_pieces (String c s') =
  match s' with
  | String d rest =>
      if Ascii.eqb c "." && Ascii.eqb d " "
      then let '(p, ps) := PyStr.split_pieces rest in (EmptyString, p :: ps)
      else let '(p, ps) := PyStr.split_pieces s' in (String c p, ps)
  | EmptyString => (String c EmptyString, [])
  end.
Proof. reflexivity. Qed.

Lemma join_cons_pieces (sep x p : string) (ps : list string) :
  PyStr.join sep (x :: p :: ps) = (x ++ sep ++ PyStr.join sep (p :: ps))%string.
Proof. reflexivity. Qed.

Lemma join_String_cons (sep : string) (c : ascii) (p : string) (ps : list string) :
  PyStr.join sep (String c p :: ps) = String c (PyStr.join sep (p :: ps)).
Proof. destruct ps; reflexivity. Qed.

(** ['. '.join(t.split('. ')) == t], by induction on a bound of the length
    since a delimiter consumes two characters. *)
Lemma join_split_bounded (n : nat) :
  forall t, (String.length t <= n)%nat ->
            PyStr.join PyStr.delim (PyStr.split t) = t.
Proof.
  induction n as [|n IH]; intros t Hlen.
  - destruct t; [reflexivity | simpl in Hlen; lia].
  - destruct t as [|c s']; [reflexivity|].
    unfold PyStr.split. rewrite split_pieces_cons.
    destruct s' as [|d rest]; [reflexivity|].
    destruct (Ascii.eqb c "." && Ascii.eqb d " ") eqn:E.
    + apply andb_prop in E as [Ec Ed].
      apply Ascii.eqb_eq in Ec, Ed. subst c d.
      assert (Hr : PyStr.join PyStr.delim (PyStr.split rest) = rest)
        by (apply IH; simpl in Hlen; lia).
      unfold PyStr.split in Hr.
      destruct (PyStr.split_pieces rest) as [p ps].
      rewrite join_cons_pieces, Hr. reflexivity.
    + assert (Hr : PyStr.join PyStr.delim (PyStr.split (String d rest)) = String d rest)
        by (apply IH; simpl in Hlen |- *; lia).
      unfold PyStr.split in Hr.
      destruct (PyStr.split_pieces (String d rest)) as [p ps].
      rewrite join_String_cons, Hr. reflexivity.
Qed.

Lemma join_split (t : string) : PyStr.join PyStr.delim (PyStr.split t) = t.
Proof. apply (join_split_bounded (String.length t)); lia. Qed.

(** A text with no delimiter in it is a single sentence. *)
Lemma split_no_delim (t : string) :
  PyStr.has_delim t = false -> PyStr.split t = [t].
Proof.
  unfold PyStr.split.
  induction t as [|c s' IH]; intros H; [reflexivity|].
  rewrite split_pieces_cons.
  destruct s' as [|d rest]; [reflexivity|].
  change (PyStr.has_delim (String c (String d rest)))
    with ((Ascii.eqb c "." && Ascii.eqb d " ") || PyStr.has_delim (String d rest)) in H.
  apply orb_false_elim in H as [E H]. rewrite E.
  specialize (IH H).
  destruct (PyStr.split_pieces (String d rest)) as [p ps].
  injection IH as -> ->. reflexivity.
Qed.

Lemma join_app (sep : string) (l1 l2 : list string) :
  l1 <> [] -> l2 <> [] ->
  PyStr.join sep (l1 ++ l2) =
  (PyStr.join sep l1 ++ sep ++ PyStr.join sep l2)%string.
Proof.
  intros H1 H2. induction l1 as [|x l1 IH]; [congruence|].
  destruct l1 as [|y l1].
  - destruct l2; [congruence | reflexivity].
  - change (PyStr.join sep ((x :: y :: l1) ++ l2))
      with (x ++ sep ++ PyStr.join sep ((y :: l1) ++ l2))%string.
    rewrite IH by discriminate.
    rewrite join_cons_pieces, !append_assoc. reflexivity.
Qed.

(** Joining groups that were each joined is joining their concatenation,
    as long as no group is empty. *)
Lemma join_groups (sep : string) (groups : list (list string)) :
  Forall (fun g => g <> []) groups ->
  PyStr.join sep (map (PyStr.join sep) groups) = PyStr.join sep (concat groups).
Proof.
  induction 1 as [|g groups Hg Hgs IH]; [reflexivity|].
  destruct groups as [|g' groups].
  - simpl. rewrite app_nil_r. reflexivity.
  - change (map (PyStr.join sep) (g :: g' :: groups))
      with (PyStr.join sep g :: PyStr.join sep g' :: map (PyStr.join sep) groups).
    rewrite join_cons_pieces.
    change (PyStr.join sep g' :: map (PyStr.join sep) groups)
      with (map (PyStr.join sep) (g' :: groups)).
    rewrite IH.
    change (concat (g :: g' :: groups)) with (g ++ concat (g' :: groups)).
    rewrite join_app; [reflexivity | exact Hg |].
    inversion Hgs as [|? ? Hg' _]; subst.
    simpl. destruct g'; [congruence | discriminate].
Qed.

Lemma has_delim_cons (c d : ascii) (rest : string) :
  PyStr.has_delim (String c (String d rest)) =
  (Ascii.eqb c "." && Ascii.eqb d " ") || PyStr.has_delim (String d rest).
Proof. reflexivity. Qed.

(** The first piece of a text is empty or starts as the text does. *)
Lemma first_piece_shape (d : ascii) (rest p : string) (ps : list string) :
  PyStr.split_pieces (String d rest) = (p, ps) ->
  p = "" \/ exists p', p = String d p'.
Proof.
  rewrite split_pieces_cons. destruct rest as [|d' rest'].
  - intros [= <- _]. right. eauto.
  - destruct (Ascii.eqb d "." && Ascii.eqb d' " ").
    + destruct (PyStr.split_pieces rest'). intros [= <- _]. left. reflexivity.
    + destruct (PyStr.split_pieces (String d' rest')).
      intros [= <- _]. right. eauto.
Qed.

(** No sentence of a split text contains the delimiter. *)
Lemma split_pieces_no_delim_bounded (n : nat) :
  forall t, (String.length t <= n)%nat ->
            Forall (fun p => PyStr.has_delim p = false) (PyStr.split t).
Proof.
  induction n as [|n IH]; intros t Hlen.
  - destruct t; [repeat constructor | simpl in Hlen; lia].
  - destruct t as [|c s']; [repeat constructor|].
    unfold PyStr.split. rewrite split_pieces_cons.
    destruct s' as [|d rest]; [repeat constructor|].
    destruct (Ascii.eqb c "." && Ascii.eqb d " ") eqn:E.
    + assert (Hr : Forall (fun p => PyStr.has_delim p = false) (PyStr.split rest))
        by (apply IH; simpl in Hlen; lia).
      unfold PyStr.split in Hr.
      destruct (PyStr.split_pieces rest) as [p ps].
      constructor; [reflexivity | exact Hr].
    + assert (Hr : Forall (fun p => PyStr.has_delim p = false)
                          (PyStr.split (String d rest)))
        by (apply IH; simpl in Hlen |- *; lia).
      unfold PyStr.split in Hr.
      destruct (PyStr.split_pieces (String d rest)) as [p ps] eqn:Hp.
      inversion Hr as [|? ? Hp0 Hps]; subst.
      constructor; [|exact Hps].
      destruct (first_piece_shape _ _ _ _ Hp) as [-> | [p' ->]];
        [reflexivity|].
      rewrite has_delim_cons, E. exact Hp0.
Qed.

Lemma split_pieces_no_delim (t : string) :
  Forall (fun p => PyStr.has_delim p = false) (PyStr.split t).
Proof. apply (split_pieces_no_delim_bounded (String.length t)); lia. Qed.

(** Splitting a delimiter-free piece followed by the delimiter and a rest
    gives the piece and the split of the rest. *)
Lemma split_piece_then_delim (p rest : string) :
  PyStr.has_delim p = false ->
  PyStr.split (p ++ PyStr.delim ++ rest) = p :: PyStr.split rest.
Proof.
  unfold PyStr.split.
  induction p as [|c p IH]; intros Hd.
  - simpl. destruct (PyStr.split_pieces rest). reflexivity.
  - change (String c p ++ PyStr.delim ++ rest)%string
      with (String c (p ++ PyStr.delim ++ rest)).
    rewrite split_pieces_cons.
    destruct p as [|d p'].
    + clear IH.
      change ("" ++ PyStr.delim ++ rest)%string
        with (String "." (String " " rest)).
      cbv iota beta.
      change (Ascii.eqb "." " ") with false.
      rewrite andb_false_r, split_pieces_cons.
      change (Ascii.eqb "." "." && Ascii.eqb " " " ") with true.
      cbv iota.
      destruct (PyStr.split_pieces rest) as [r rs]. reflexivity.
    + rewrite has_delim_cons in Hd. apply orb_false_elim in Hd as [E Hd].
      change (String d p' ++ PyStr.delim ++ rest)%string
        with (String d (p' ++ PyStr.delim ++ rest)) in *.
      cbv iota beta. rewrite E. specialize (IH Hd).
      destruct (PyStr.split_pieces (String d (p' ++ PyStr.delim ++ rest)))
        as [q qs].
      destruct (PyStr.split_pieces rest) as [r rs].
      injection IH as -> ->. reflexivity.
Qed.

(** [('. '.join(g)).split('. ') == g] for a non-empty list of delimiter-free
    pieces. *)
Lemma split_join (g : list string) :
  g <> [] ->
  Forall (fun p => PyStr.has_delim p = false) g ->
  PyStr.split (PyStr.join PyStr.delim g) = g.
Proof.
  induction g as [|x g IH]; [congruence | intros _ Hall].
  inversion Hall as [|? ? Hx Hg]; subst.
  destruct g as [|y g].
  - apply split_no_delim, Hx.
  - rewrite join_cons_pieces, split_piece_then_delim by exact Hx.
    rewrite IH; [reflexivity | discriminate | exact Hg].
Qed.

End StringFacts.

(** * The chunker *)

Section Chunker.

Variable max_chunk_size : Z.

Lemma flush_singleton (sentence : string) :
  flush [sentence] = (sentence ++ ".")%string.
Proof. reflexivity. Qed.

Lemma truthy_false {A : Type} (l : list A) : truthy l = false -> l = [].
Proof. destruct l; [reflexivity | discriminate]. Qed.

Lemma truthy_true {A : Type} (l : list A) : truthy l = true -> l <> [].
Proof. destruct l; [discriminate | intros _; discriminate]. Qed.

Lemma sentences_length_app (g : list string) (sentence : string) :
  sentences_length (g ++ [sentence]) = sentences_length g + PyStr.len sentence.
Proof. induction g as [|x g IH]; simpl; lia. Qed.

Lemma chunk_inv_init : chunk_inv max_chunk_size [] chunker_init.
Proof.
  exists []. split; [reflexivity|]. split; [reflexivity|].
  split; [constructor|]. split; [reflexivity | left; reflexivity].
Qed.

Lemma chunk_inv_step (read : list string) (st : chunker_state) (sentence : string) :
  chunk_inv max_chunk_size read st ->
  chunk_inv max_chunk_size (read ++ [sentence])
            (chunk_step max_chunk_size st sentence).
Proof.
  intros (groups & Hc & Hread & Hok & Hlen & Hbuf).
  unfold chunk_step.
  destruct (current_length st + PyStr.len sentence >? max_chunk_size) eqn:Hover.
  - assert (Hone : within_budget max_chunk_size [sentence])
      by (split; [discriminate | left; reflexivity]).
    destruct (truthy (current_chunk st)) eqn:Ht.
    + apply truthy_true in Ht. destruct Hbuf as [Hbuf | Hbuf]; [congruence|].
      exists (groups ++ [current_chunk st]); simpl. repeat split.
      * rewrite Hc, map_app. reflexivity.
      * rewrite concat_app. simpl. rewrite app_nil_r, Hread. reflexivity.
      * apply Forall_app. split; [exact Hok | constructor; [exact Hbuf | constructor]].
      * lia.
      * right. exact Hone.
    + apply truthy_false in Ht.
      exists (groups ++ [[sentence]]); simpl. repeat split.
      * rewrite Hc, map_app. reflexivity.
      * rewrite Ht in *. rewrite app_nil_r in *.
        rewrite concat_app. simpl. rewrite Hread. reflexivity.
      * apply Forall_app. split; [exact Hok | constructor; [exact Hone | constructor]].
      * exact Hlen.
      * left. exact Ht.
  - rewrite Z.gtb_ltb, Z.ltb_ge in Hover.
    exists groups; simpl. repeat split; try assumption.
    + rewrite app_assoc, Hread. reflexivity.
    + rewrite sentences_length_app. lia.
    + right. split.
      * destruct (current_chunk st); discriminate.
      * right. rewrite sentences_length_app. lia.
Qed.

Lemma chunk_inv_fold (sentences : list string) :
  forall read st,
    chunk_inv max_chunk_size read st ->
    chunk_inv max_chunk_size (read ++ sentences)
              (fold_left (chunk_step max_chunk_size) sentences st).
Proof.
  induction sentences as [|sentence rest IH]; intros read st Hinv; simpl.
  - rewrite app_nil_r. exact Hinv.
  - replace (read ++ sentence :: rest) with ((read ++ [sentence]) ++ rest)
      by (rewrite <- app_assoc; reflexivity).
    apply IH, chunk_inv_step, Hinv.
Qed.

(** The chunks are the flushed groups of a partition of the sentence
    sequence into runs within the budget: no sentence is lost, duplicated or
    reordered. *)
Lemma chunk_text_partition (text : string) :
  exists groups,
    _chunk_text text max_chunk_size = map flush groups /\
    concat groups = PyStr.split text /\
    Forall (within_budget max_chunk_size) groups.
Proof.
  unfold _chunk_text, chunk_finish.
  destruct (chunk_inv_fold (PyStr.split text) [] chunker_init chunk_inv_init)
    as (groups & Hc & Hread & Hok & _ & Hbuf).
  simpl in Hread.
  set (st := fold_left (chunk_step max_chunk_size) (PyStr.split text) chunker_init) in *.
  destruct (truthy (current_chunk st)) eqn:Ht.
  - apply truthy_true in Ht. destruct Hbuf as [Hbuf | Hbuf]; [congruence|].
    exists (groups ++ [current_chunk st]). repeat split.
    + rewrite Hc, map_app. reflexivity.
    + rewrite concat_app. simpl. rewrite app_nil_r. exact Hread.
    + apply Forall_app. split; [exact Hok | constructor; [exact Hbuf | constructor]].
  - apply truthy_false in Ht. rewrite Ht, app_nil_r in Hread.
    exists groups. repeat split; assumption.
Qed.

Lemma chunk_text_groups (text : string) :
  exists groups,
    _chunk_text text max_chunk_size = map flush groups /\
    concat groups = PyStr.split text /\
    Forall (fun g => g <> []) groups.
Proof.
  destruct (chunk_text_partition text) as (groups & Hc & Hcat & Hok).
  exists groups. repeat split; try assumption.
  eapply Forall_impl; [|exact Hok]. intros g [Hg _]. exact Hg.
Qed.

(** The characters of a flushed run: its sentences, a delimiter between any
    two of them and the appended period. *)
Lemma len_flush (g : list string) :
  g <> [] ->
  PyStr.len (flush g)
  = sentences_length g + 2 * (Z.of_nat (length g) - 1) + 1.
Proof.
  intros Hg. unfold flush. rewrite len_append_period. f_equal.
  induction g as [|x g IH]; [congruence|].
  destruct g as [|y g].
  - simpl. unfold PyStr.len. lia.
  - rewrite join_cons_pieces.
    unfold PyStr.len in *. rewrite !length_append.
    specialize (IH ltac:(discriminate)).
    change (sentences_length (x :: y :: g))
      with (Z.of_nat (String.length x) + sentences_length (y :: g)).
    change (String.length PyStr.delim) with 2%nat.
    change (length (x :: y :: g)) with (S (length (y :: g))).
    lia.
Qed.

(** X2: What the chunker does bound: a chunk is a run of consecutive
    sentences of the text, flushed; a run of several sentences has at most
    [max_chunk_size] characters of sentences, to which come the delimiters
    and the appended period. *)
Lemma chunk_text_budget (text c : string) :
  In c (_chunk_text text max_chunk_size) ->
  exists before g after,
    PyStr.split text = before ++ g ++ after /\
    g <> [] /\
    c = flush g /\
    PyStr.len c = sentences_length g + 2 * (Z.of_nat (length g) - 1) + 1 /\
    (length g = 1%nat \/ sentences_length g <= max_chunk_size).
Proof.
  destruct (chunk_text_partition text) as (groups & -> & Hcat & Hok).
  intros Hin. apply in_map_iff in Hin as (g & <- & Hg).
  rewrite Forall_forall in Hok. destruct (Hok g Hg) as [Hne Hb].
  apply in_split in Hg as (l1 & l2 & ->).
  exists (concat l1), g, (concat l2).
  split.
  - rewrite <- Hcat, concat_app. reflexivity.
  - split; [exact Hne|]. split; [reflexivity|].
    split; [apply len_flush, Hne | exact Hb].
Qed.

Lemma drop_last_flush (g : list string) :
  PyStr.drop_last (flush g) = PyStr.join PyStr.delim g.
Proof. unfold flush. apply drop_last_append_char. Qed.

(** Removing the period appended to each chunk and joining the chunks by the
    delimiter gives back the text. *)
Lemma chunk_text_rejoin (text : string) :
  PyStr.join PyStr.delim (map PyStr.drop_last (_chunk_text text max_chunk_size))
  = text.
Proof.
  destruct (chunk_text_groups text) as (groups & -> & Hcat & Hne).
  rewrite map_map.
  rewrite (map_ext _ (PyStr.join PyStr.delim) drop_last_flush).
  rewrite join_groups by exact Hne.
  rewrite Hcat. apply join_split.
Qed.

(** Each chunk, without its appended period, splits into the sentences it
    was made of: the chunks carry the sentence sequence of the text. *)
Lemma chunk_text_sentences (text : string) :
  concat (map (fun c => PyStr.split (PyStr.drop_last c))
              (_chunk_text text max_chunk_size))
  = PyStr.split text.
Proof.
  destruct (chunk_text_groups text) as (groups & -> & Hcat & Hne).
  pose proof (split_pieces_no_delim text) as Hnd. rewrite <- Hcat in Hnd.
  rewrite <- Hcat. clear Hcat. rewrite map_map.
  induction groups as [|g groups IH]; [reflexivity|].
  inversion Hne as [|? ? Hg Hgs]; subst.
  simpl in Hnd. apply Forall_app in Hnd as [Hnd1 Hnd2].
  simpl. rewrite drop_last_flush, split_join by assumption.
  rewrite IH by assumption. reflexivity.
Qed.

(** C5: for every non-empty text, the chunks, each without its appended
    period, joined by the delimiter reconstruct the text, hence the sentence
    sequence obtained by splitting the text on the delimiter; the sentences
    of the chunks, taken chunk by chunk, are that sequence too. *)
Theorem chunk_text_reconstructs_sentences (text : string) :
  text <> "" ->
  PyStr.join PyStr.delim (map PyStr.drop_last (_chunk_text text max_chunk_size))
    = text /\
  PyStr.split
    (PyStr.join PyStr.delim (map PyStr.drop_last (_chunk_text text max_chunk_size)))
    = PyStr.split text /\
  concat (map (fun c => PyStr.split (PyStr.drop_last c))
              (_chunk_text text max_chunk_size))
    = PyStr.split text.
Proof.
  intros _. rewrite chunk_text_rejoin.
  split; [reflexivity|]. split; [reflexivity | apply chunk_text_sentences].
Qed.

(** C10, as amended: every chunk ends with ['.'], whatever the end of the
    input: it is a non-empty run of consecutive sentences of the input joined
    by the delimiter, followed by one appended period. *)
Theorem chunk_ends_with_period (text c : string) :
  In c (_chunk_text text max_chunk_size) ->
  PyStr.ends_with "." c = true /\
  exists before group after,
    PyStr.split text = before ++ group ++ after /\
    group <> [] /\
    c = (PyStr.join PyStr.delim group ++ ".")%string.
Proof.
  destruct (chunk_text_groups text) as (groups & -> & Hcat & Hne).
  intros Hin. apply in_map_iff in Hin as (g & <- & Hg).
  split; [apply ends_with_append_char|].
  apply in_split in Hg as (gs1 & gs2 & ->).
  exists (concat gs1), g, (concat gs2). repeat split.
  - rewrite <- Hcat, concat_app. reflexivity.
  - apply Forall_app in Hne as [_ Hne]. inversion Hne; assumption.
Qed.

End Chunker.

(** ** The chunker on particular inputs *)

(** A text that is one sentence longer than the limit is emitted at once,
    with the appended period. *)
Lemma chunk_text_oversized (text : string) (max_chunk_size : Z) :
  PyStr.has_delim text = false ->
  max_chunk_size < PyStr.len text ->
  _chunk_text text max_chunk_size = [(text ++ ".")%string].
Proof.
  intros Hd Hlen. unfold _chunk_text.
  rewrite (split_no_delim _ Hd). simpl.
  unfold chunk_step. simpl.
  destruct (PyStr.len text >? max_chunk_size) eqn:E; [reflexivity|].
  rewrite Z.gtb_ltb, Z.ltb_ge in E. lia.
Qed.

(** C9, as amended: with a limit of 50, a text that is one sentence of 120
    characters gives exactly one chunk, the sentence followed by the appended
    period, of 121 characters. *)
Theorem chunk_text_single_long_sentence (text : string) :
  PyStr.len text = 120 ->
  PyStr.has_delim text = false ->
  _chunk_text text 50 = [(text ++ ".")%string] /\
  PyStr.len (text ++ ".") = 121.
Proof.
  intros Hlen Hd. split.
  - apply chunk_text_oversized; [exact Hd | lia].
  - rewrite len_append_period. lia.
Qed.

Lemma chunk_text_single_long_sentence_witness :
  PyStr.len sentence120 = 120 /\
  PyStr.has_delim sentence120 = false /\
  _chunk_text sentence120 50 = [(sentence120 ++ ".")%string] /\
  PyStr.len (sentence120 ++ ".") = 121.
Proof.
  assert (H1 : PyStr.len sentence120 = 120) by (vm_compute; reflexivity).
  assert (H2 : PyStr.has_delim sentence120 = false) by (vm_compute; reflexivity).
  split; [exact H1|]. split; [exact H2|].
  apply (chunk_text_single_long_sentence sentence120 H1 H2).
Defined.

(** C9, as stated, fails: the single chunk of a 120-character sentence has
    121 characters. *)
Lemma long_sentence_chunk_is_not_120 :
  PyStr.len sentence120 = 120 /\
  PyStr.has_delim sentence120 = false /\
  ~ (exists c, _chunk_text sentence120 50 = [c] /\ PyStr.len c = 120).
Proof.
  split; [reflexivity|]. split; [reflexivity|].
  intros (c & Hc & Hlen).
  assert (H : _chunk_text sentence120 50 = [(sentence120 ++ ".")%string])
    by (vm_compute; reflexivity).
  rewrite H in Hc. injection Hc as <-.
  vm_compute in Hlen. discriminate.
Qed.

(** C4 fails on the code: the running length counts the sentences only, not
    the delimiters between them nor the appended period, so two sentences of
    3 and 2 characters form a chunk of 8 characters under a limit of 5. *)
Theorem chunk_text_exceeds_max_chunk_size :
  PyStr.split "abc. de" = ["abc"; "de"] /\
  _chunk_text "abc. de" 5 = ["abc. de."] /\
  PyStr.len "abc. de." = 8 /\
  PyStr.len "abc" <= 5 /\ PyStr.len "de" <= 5.
Proof. repeat split; vm_compute; congruence. Qed.

(** The same on one sentence that does not exceed the limit. *)
Lemma chunk_text_exceeds_on_fitting_sentence :
  _chunk_text "abcde" 5 = ["abcde."] /\ PyStr.len "abcde" <= 5 /\
  PyStr.len "abcde." = 6.
Proof. repeat split; vm_compute; congruence. Qed.

(** C10, as stated, fails in its last clause: the input ["a. b"] has no
    trailing period and its first chunk ["a."] occurs in it verbatim. *)
Lemma chunk_can_be_verbatim_substring :
  PyStr.ends_with "." "a. b" = false /\
  _chunk_text "a. b" 1 = ["a."; "b."] /\
  PyStr.is_substring "a." "a. b" = true.
Proof. repeat split. Qed.

Lemma chunk_ends_with_period_witness :
  In "b." (_chunk_text "a. b" 1) /\
  PyStr.ends_with "." "b." = true /\
  exists before group after,
    PyStr.split "a. b" = before ++ group ++ after /\
    group <> [] /\
    "b." = (PyStr.join PyStr.delim group ++ ".")%string.
Proof.
  assert (H : In "b." (_chunk_text "a. b" 1))
    by (vm_compute; right; left; reflexivity).
  split; [exact H|].
  apply (chunk_ends_with_period 1 "a. b" "b." H).
Defined.

Lemma chunk_text_reconstructs_sentences_witness :
  "a. bb. c" <> "" /\
  _chunk_text "a. bb. c" 3 = ["a. bb."; "c."] /\
  PyStr.join PyStr.delim (map PyStr.drop_last (_chunk_text "a. bb. c" 3))
    = "a. bb. c" /\
  PyStr.split
    (PyStr.join PyStr.delim (map PyStr.drop_last (_chunk_text "a. bb. c" 3)))
    = PyStr.split "a. bb. c" /\
  concat (map (fun c => PyStr.split (PyStr.drop_last c))
              (_chunk_text "a. bb. c" 3))
    = PyStr.split "a. bb. c".
Proof.
  assert (H : "a. bb. c" <> "") by discriminate.
  split; [exact H|]. split; [reflexivity|].
  apply (chunk_text_reconstructs_sentences 3 "a. bb. c" H).
Defined.

(** The empty text is one empty sentence, which the final flush turns into
    the chunk ["."]. *)
Lemma chunk_text_empty (max_chunk_size : Z) :
  _chunk_text "" max_chunk_size = ["."].
Proof.
  unfold _chunk_text. simpl. unfold chunk_step. simpl.
  destruct (PyStr.len "" >? max_chunk_size); reflexivity.
Qed.

(** * Effects *)

Section MonadFacts.

Context {A B : Type}.

Lemma bind_ok (a : A) (w : list event) (f : A -> M B) :
  bind (Ok a, w) f = (fst (f a), w ++ snd (f a)).
Proof. simpl. destruct (f a); reflexivity. Qed.

Lemma bind_raise (e : exn) (w : list event) (f : A -> M B) :
  bind (Raise e, w) f = (Raise e, w).
Proof. reflexivity. Qed.

(** An exception in the first computation is the exception of the whole. *)
Lemma bind_raises_left (m : M A) (f : A -> M B) (e : exn) :
  fst m = Raise e -> fst (bind m f) = Raise e.
Proof.
  destruct m as [[a|e'] w]; simpl; intros H; [discriminate | congruence].
Qed.

(** A continuation that always raises makes the whole raise. *)
Lemma bind_raises_right (m : M A) (f : A -> M B) :
  (forall a, exists e, fst (f a) = Raise e) ->
  exists e, fst (bind m f) = Raise e.
Proof.
  intros Hf. destruct m as [[a|e'] w].
  - destruct (Hf a) as [e He]. exists e.
    rewrite bind_ok. exact He.
  - exists e'. reflexivity.
Qed.

End MonadFacts.

(** A loop raises as soon as its body raises on one item, whatever the
    accumulator then is. *)
Lemma for_each_raises {A S : Type} (body : S -> A -> M S) (x : A) :
  (forall acc, exists e, fst (body acc x) = Raise e) ->
  forall items, In x items ->
  forall acc, exists e, fst (for_each body items acc) = Raise e.
Proof.
  intros Hx items. induction items as [|y rest IH]; intros Hin acc.
  - destruct Hin.
  - simpl. destruct (body acc y) as [[acc'|e'] w] eqn:Hy.
    + destruct Hin as [-> | Hin].
      * destruct (Hx acc) as [e He]. rewrite Hy in He. discriminate.
      * destruct (IH Hin acc') as [e He]. exists e.
        rewrite bind_ok. exact He.
    + exists e'. reflexivity.
Qed.

(** The exception of a loop is the exception of its body on one of the
    items. *)
Lemma for_each_raise_origin {A S : Type} (body : S -> A -> M S) (e : exn) :
  forall items acc,
    fst (for_each body items acc) = Raise e ->
    exists x acc', In x items /\ fst (body acc' x) = Raise e.
Proof.
  induction items as [|y rest IH]; intros acc H.
  - discriminate.
  - simpl in H. destruct (body acc y) as [[acc'|e'] w] eqn:Hy.
    + rewrite bind_ok in H. cbn [fst] in H.
      destruct (IH acc' H) as (x & acc'' & Hin & Hx).
      exists x, acc''. split; [right; exact Hin | exact Hx].
    + simpl in H. exists y, acc. split; [left; reflexivity|].
      rewrite Hy. exact H.
Qed.

(** * The orchestrator *)

Section Orchestrator.

Variable self : BertSummarizer.

(** [str] gives each exception its description. *)
Lemma describes_str (e : exn) : describes e (str e).
Proof. destruct e; constructor. Qed.

(** Without overflow, the target count of a finite ratio is
    [target_count]. *)
Lemma num_sentences_of_finite (n : Z) (q : Q) :
  Qle_bool (inject_Z float_overflow) (Qabs (inject_Z n * q)) = false ->
  num_sentences_of self n (Finite q) = Ok (target_count self n q).
Proof.
  intros H. unfold num_sentences_of, int_times_float, round_float.
  rewrite H. reflexivity.
Qed.

(** For a ratio in (0, 1] the product does not overflow, whatever the
    number of sentences a machine can hold. *)
Lemma num_sentences_of_unit_interval (n : Z) (q : Q) :
  0 <= n < float_overflow ->
  (0 < q)%Q -> (q <= 1)%Q ->
  num_sentences_of self n (Finite q) = Ok (target_count self n q).
Proof.
  intros Hn Hq0 Hq1. apply num_sentences_of_finite.
  destruct (Qle_bool _ _) eqn:E; [|reflexivity].
  exfalso. apply Qle_bool_iff in E.
  assert (Hx : (0 <= inject_Z n * q)%Q).
  { apply Qmult_le_0_compat; [|apply Qlt_le_weak, Hq0].
    unfold Qle. simpl. lia. }
  rewrite (Qabs_pos _ Hx) in E.
  generalize dependent float_overflow. intros T Hn E.
  destruct q as [a b]. unfold Qle, Qlt in *. simpl in *. nia.
Qed.

(** The target count, when there is one, is at least 1. *)
Lemma num_sentences_of_pos (n : Z) (compression_ratio : pyfloat) (k : Z) :
  num_sentences_of self n compression_ratio = Ok k -> 1 <= k.
Proof.
  unfold num_sentences_of.
  destruct (int_of_pyfloat _) as [k'|e]; [|discriminate].
  intros H. injection H as <-. lia.
Qed.

(** Whether a chunk makes the pipeline raise, and with what, does not depend
    on the summaries collected so far. *)
Lemma summarize_chunk_raise_acc (compression_ratio : pyfloat)
    (acc acc' : list string) (chunk : string) (e : exn) :
  fst (summarize_chunk self compression_ratio acc chunk) = Raise e ->
  fst (summarize_chunk self compression_ratio acc' chunk) = Raise e.
Proof.
  unfold summarize_chunk.
  destruct (_get_sentence_embeddings self (PyStr.split chunk))
    as [[embeddings|e1] w1]; [|exact (fun H => H)].
  rewrite !bind_ok. cbn [fst].
  destruct (num_sentences_of self _ compression_ratio) as [k|e2];
    [|exact (fun H => H)].
  unfold lift. rewrite !bind_ok. cbn [fst].
  destruct (_select_important_sentences self _ embeddings k)
    as [[important|e3] w3]; [|exact (fun H => H)].
  rewrite !bind_ok. cbn [fst].
  destruct (summarizer self _ _ _) as [t|e4]; simpl;
    [discriminate | exact (fun H => H)].
Qed.

(** What the handler makes of an exception of the body. *)
Lemma summarize_of_raise (text : string) (compression_ratio : pyfloat)
    (e : exn) :
  fst (summarize_body self text compression_ratio) = Raise e ->
  summarize self text compression_ratio =
  (Ok (failure_result e),
   snd (summarize_body self text compression_ratio)
   ++ [LogError ("Error during summarization: " ++ str e)%string]).
Proof.
  unfold summarize. intros H.
  destruct (summarize_body self text compression_ratio) as [[r|e'] w];
    simpl in H; [discriminate|].
  injection H as ->. reflexivity.
Qed.

(** The embedding loop appends one row for each sentence. *)
Lemma embedding_loop_length (sentences : list string) :
  forall (acc embeddings : list (Emb self)) (w : list event),
    for_each (fun embeddings sentence =>
                sentence_embedding <- call (CallBert sentence) (bert_cls self sentence) ;;
                ret (embeddings ++ [sentence_embedding]))
             sentences acc = (Ok embeddings, w) ->
    length embeddings = (length acc + length sentences)%nat.
Proof.
  induction sentences as [|sentence rest IH]; intros acc embeddings w H.
  - injection H as <- _. simpl. lia.
  - simpl in H. destruct (bert_cls self sentence) as [row|e]; [|discriminate].
    simpl in H.
    destruct (for_each _ rest (acc ++ [row])) as [[r|e] w'] eqn:Hrest;
      [|discriminate].
    injection H as <- _.
    rewrite (IH _ _ _ Hrest), length_app. simpl. lia.
Qed.

(** The selector receives one embedding for each sentence. *)
Lemma embeddings_length (sentences : list string)
    (embeddings : list (Emb self)) (w : list event) :
  _get_sentence_embeddings self sentences = (Ok embeddings, w) ->
  length embeddings = length sentences.
Proof.
  unfold _get_sentence_embeddings. intros H.
  destruct (for_each _ sentences []) as [[rows|e] w'] eqn:Hloop;
    [|discriminate].
  apply embedding_loop_length in Hloop. simpl in Hloop.
  rewrite bind_ok in H. destruct rows; [discriminate|].
  simpl in H. injection H as <- _. exact Hloop.
Qed.

Lemma embeddings_raise (sentences : list string) (sentence : string) (e : exn) :
  In sentence sentences ->
  bert_cls self sentence = Raise e ->
  exists e', fst (_get_sentence_embeddings self sentences) = Raise e'.
Proof.
  intros Hin He. unfold _get_sentence_embeddings.
  destruct (for_each_raises
              (fun embeddings sentence =>
                 sentence_embedding <- call (CallBert sentence) (bert_cls self sentence) ;;
                 ret (embeddings ++ [sentence_embedding]))
              sentence) with (items := sentences) (acc := @nil (Emb self))
    as [e' He'].
  - intros acc. exists e. rewrite He. reflexivity.
  - exact Hin.
  - exists e'. apply bind_raises_left, He'.
Qed.

Lemma summarize_chunk_raises (compression_ratio : pyfloat) (chunk : string) :
  stage_fails self compression_ratio chunk ->
  forall all_summaries,
  exists e, fst (summarize_chunk self compression_ratio all_summaries chunk)
            = Raise e.
Proof.
  intros Hfail all_summaries. unfold summarize_chunk.
  destruct Hfail as [sentence e Hin He
                    | embeddings w k e Hemb Hnum Hsel
                    | embeddings w w' k important e Hemb Hnum Hsel Hsum].
  - destruct (embeddings_raise _ _ _ Hin He) as [e' He'].
    exists e'. apply bind_raises_left, He'.
  - exists e. rewrite Hemb, bind_ok. cbn [fst].
    rewrite Hnum. unfold lift at 1. rewrite bind_ok. cbn [fst].
    apply bind_raises_left, Hsel.
  - exists e. rewrite Hemb, bind_ok. cbn [fst].
    rewrite Hnum. unfold lift at 1. rewrite bind_ok. cbn [fst].
    rewrite Hsel, bind_ok. cbn [fst]. rewrite Hsum. reflexivity.
Qed.

(** C1: if a stage fails on some chunk, the loop over the chunks raises
    the exception [e] that the pipeline raises on one of the chunks, and the
    call returns the failure dictionary for that exception: an empty summary
    and the description of [e], which is also what is logged after the
    events of the body; the summaries of the chunks processed before are
    dropped. *)
Theorem summarize_all_or_nothing (text : string) (compression_ratio : pyfloat)
    (chunk : string) :
  In chunk (_chunk_text text 512) ->
  stage_fails self compression_ratio chunk ->
  exists e msg failing,
    In failing (_chunk_text text 512) /\
    fst (summarize_chunk self compression_ratio [] failing) = Raise e /\
    fst (summarize_body self text compression_ratio) = Raise e /\
    describes e msg /\
    summarize self text compression_ratio =
    (Ok {| summary := ""; metadata := ErrorInfo msg |},
     snd (summarize_body self text compression_ratio)
     ++ [LogError ("Error during summarization: " ++ msg)%string]).
Proof.
  intros Hin Hfail.
  destruct (for_each_raises (summarize_chunk self compression_ratio) chunk
              (summarize_chunk_raises compression_ratio chunk Hfail)
              (_chunk_text text 512) Hin []) as [e Hloop].
  destruct (for_each_raise_origin _ _ _ _ Hloop)
    as (failing & acc & Hfailing & Hraise).
  assert (Hbody : fst (summarize_body self text compression_ratio) = Raise e).
  { unfold summarize_body. apply bind_raises_left, Hloop. }
  exists e, (str e), failing.
  split; [exact Hfailing|].
  split; [exact (summarize_chunk_raise_acc _ _ _ _ _ Hraise)|].
  split; [exact Hbody|].
  split; [apply describes_str|].
  apply summarize_of_raise, Hbody.
Qed.

(** C2 fails on the code: the chunker turns the empty text into the chunk
    ["."], and [summarize] then divides by the length of the text: whatever
    the capabilities do, the call on the empty text returns the failure
    dictionary. *)
Theorem summarize_empty_text_fails (compression_ratio : pyfloat) :
  _chunk_text "" 512 = ["."] /\
  exists e w,
    summarize self "" compression_ratio =
    (Ok {| summary := ""; metadata := ErrorInfo (str e) |}, w).
Proof.
  split; [apply chunk_text_empty|].
  assert (Hbody : exists e,
             fst (summarize_body self "" compression_ratio) = Raise e).
  { unfold summarize_body. apply bind_raises_right.
    intros all_summaries. exists ZeroDivisionError. reflexivity. }
  destruct Hbody as [e He]. exists e. eexists.
  apply summarize_of_raise, He.
Qed.

Lemma len_pos (text : string) : text <> "" -> (PyStr.len text =? 0) = false.
Proof.
  intros H. apply Z.eqb_neq. unfold PyStr.len.
  destruct text; [congruence | simpl; lia].
Qed.

(** When every chunk goes through, a non-empty text gives the success
    dictionary, for any ratio whatever. *)
Lemma summarize_success (text : string) (compression_ratio : pyfloat)
    (all_summaries : list string) (w : list event) :
  text <> "" ->
  for_each (summarize_chunk self compression_ratio) (_chunk_text text 512) []
    = (Ok all_summaries, w) ->
  summarize self text compression_ratio =
  (Ok {| summary := PyStr.join " " all_summaries;
         metadata :=
           Stats (PyStr.len text)
                 (PyStr.len (PyStr.join " " all_summaries))
                 (fl self (inject_Z (PyStr.len (PyStr.join " " all_summaries))
                           / inject_Z (PyStr.len text))%Q)
                 (Z.of_nat (length (_chunk_text text 512))) |},
   w).
Proof.
  intros Hne Hloop. unfold summarize, summarize_body.
  rewrite Hloop, bind_ok. unfold true_div.
  rewrite (len_pos _ Hne). simpl. rewrite !app_nil_r. reflexivity.
Qed.


(** C6: with no more sentences than the target count, the selector returns
    its input list as it is and emits no event: k-means is not called. *)
Theorem select_returns_short_input (sentences : list string)
    (embeddings : list (Emb self)) (num_sentences : Z) :
  Z.of_nat (length sentences) <= num_sentences ->
  _select_important_sentences self sentences embeddings num_sentences
  = (Ok sentences, []).
Proof.
  intros H. unfold _select_important_sentences.
  apply Z.leb_le in H. rewrite H. reflexivity.
Qed.



End Orchestrator.

(** * The selector *)

Section ListFacts.

Context {A B : Type}.

Lemma skipn_cons_inv (l : list A) :
  forall n x r, skipn n l = x :: r ->
                nth_error l n = Some x /\ skipn (S n) l = r.
Proof.
  induction l as [|y l IH]; intros n x r H.
  - destruct n; discriminate.
  - destruct n as [|n]; simpl in *.
    + injection H as -> ->. split; reflexivity.
    + apply IH, H.
Qed.

Lemma skipn_nil_inv (l : list A) (n : nat) :
  skipn n l = [] -> (length l <= n)%nat.
Proof.
  intros H. pose proof (length_skipn n l) as Hl.
  rewrite H in Hl. simpl in Hl. lia.
Qed.

Lemma nth_error_lt (l : list A) (p : nat) (a : A) :
  nth_error l p = Some a -> (p < length l)%nat.
Proof. intros H. apply nth_error_Some. congruence. Qed.

End ListFacts.

Section Argmax.

(** The invariant of the scan: [best] is the value at [best_idx], no value
    seen so far is greater and those before [best_idx] are smaller. *)
Lemma argmax_from_spec (L : list Q) :
  forall l idx best best_idx,
    skipn idx L = l ->
    (best_idx < idx)%nat ->
    nth_error L best_idx = Some best ->
    (forall p q', (p < idx)%nat -> nth_error L p = Some q' ->
                  (q' <= best)%Q /\ ((p < best_idx)%nat -> (q' < best)%Q)) ->
    exists q,
      nth_error L (argmax_from best best_idx idx l) = Some q /\
      forall p q', nth_error L p = Some q' ->
                   (q' <= q)%Q /\
                   ((p < argmax_from best best_idx idx l)%nat -> (q' < q)%Q).
Proof.
  induction l as [|x r IH]; intros idx best best_idx Hskip Hidx Hbest Hseen.
  - simpl. exists best. split; [exact Hbest|].
    intros p q' Hp. apply Hseen; [|exact Hp].
    apply skipn_nil_inv in Hskip. apply nth_error_lt in Hp. lia.
  - apply skipn_cons_inv in Hskip as [Hx Hskip]. simpl.
    destruct (Qle_bool x best) eqn:E.
    + apply IH; [exact Hskip | lia | exact Hbest |].
      intros p q' Hlt Hp.
      destruct (Nat.eq_dec p idx) as [-> | Hne].
      * rewrite Hx in Hp. injection Hp as <-. split.
        -- apply Qle_bool_iff, E.
        -- intros Hlt'. exfalso. lia.
      * apply Hseen; [lia | exact Hp].
    + assert (Hgt : (best < x)%Q).
      { apply Qnot_le_lt. intros Hle. apply Qle_bool_iff in Hle. congruence. }
      apply IH; [exact Hskip | lia | exact Hx |].
      intros p q' Hlt Hp.
      destruct (Nat.eq_dec p idx) as [-> | Hne].
      * rewrite Hx in Hp. injection Hp as <-. split; [apply Qle_refl | intros Habs; exfalso; lia].
      * destruct (Hseen p q') as [Hle _]; [lia | exact Hp |].
        assert (q' < x)%Q by (eapply Qle_lt_trans; eassumption).
        split; [apply Qlt_le_weak|]; auto.
Qed.

(** [argmax] gives the first position of the greatest value. *)
Lemma argmax_spec (l : list Q) :
  l <> [] ->
  exists q,
    nth_error l (argmax l) = Some q /\
    forall p q', nth_error l p = Some q' ->
                 (q' <= q)%Q /\ ((p < argmax l)%nat -> (q' < q)%Q).
Proof.
  destruct l as [|x r]; [congruence | intros _].
  unfold argmax.
  apply (argmax_from_spec (x :: r) r 1 x 0); [reflexivity | lia | reflexivity |].
  intros p q' Hlt Hp. assert (p = 0%nat) by lia. subst p.
  simpl in Hp. injection Hp as <-. split; [apply Qle_refl | intros Habs; exfalso; lia].
Qed.

End Argmax.

Lemma py_index_ok {A : Type} (l : list A) (n : nat) (a : A) :
  nth_error l n = Some a -> py_index l (Z.of_nat n) = Ok a.
Proof.
  intros H. pose proof (nth_error_lt _ _ _ H) as Hlt. unfold py_index.
  replace (Z.of_nat n <? 0) with false by (symmetry; apply Z.ltb_ge; lia).
  replace (Z.of_nat n <? 0) with false by (symmetry; apply Z.ltb_ge; lia).
  replace (Z.of_nat (length l) <=? Z.of_nat n) with false
    by (symmetry; apply Z.leb_gt; lia).
  simpl. rewrite Nat2Z.id, H. reflexivity.
Qed.

Section Selector.

Variable self : BertSummarizer.
Variable sentences : list string.
Variable embeddings : list (Emb self).
Variable clusters : list Z.
Variable cluster_centers_ : list (Centroid self).

Hypothesis sentences_labelled : length sentences = length clusters.
Hypothesis embeddings_labelled : length embeddings = length clusters.

(** The sentences of a cluster: there are some exactly when the label
    occurs. *)
Lemma filter_by_label_shape {A : Type} (items : list A) :
  forall (labels : list Z) (i : Z),
    length items = length labels ->
    exists r, filter_by_label items labels i = Ok r /\
              (r = [] <-> ~ In i labels).
Proof.
  induction items as [|x items IH]; intros [|c labels] i Hlen;
    try discriminate.
  - exists []. split; [reflexivity|]. split; [intros _ [] | reflexivity].
  - injection Hlen as Hlen.
    destruct (IH labels i Hlen) as (r & Hr & Hiff).
    cbn [filter_by_label]. rewrite Hr.
    destruct (c =? i) eqn:E.
    + apply Z.eqb_eq in E. exists (x :: r). split; [reflexivity|].
      split; [discriminate|]. intros Hn. exfalso. apply Hn. left. exact E.
    + apply Z.eqb_neq in E. exists r. split; [reflexivity|].
      split.
      * intros Hnil [Hc | Hin]; [exact (E Hc) | exact (proj1 Hiff Hnil Hin)].
      * intros Hn. apply Hiff. intros Hin. apply Hn. right. exact Hin.
Qed.

(** A cluster index within the centroids can be read. *)
Lemma py_index_in_range {A : Type} (l : list A) (i : Z) :
  0 <= i < Z.of_nat (length l) -> exists a, py_index l i = Ok a.
Proof.
  intros Hi. destruct (nth_error l (Z.to_nat i)) as [a|] eqn:E.
  - exists a. rewrite <- (Z2Nat.id i) by lia. apply py_index_ok, E.
  - apply nth_error_None in E. lia.
Qed.

(** An iteration for a cluster that received no sentence changes nothing. *)
Lemma select_from_cluster_empty (important_sentences : list string) (i : Z) :
  ~ In i clusters ->
  select_from_cluster self sentences embeddings clusters cluster_centers_
                      important_sentences i
  = (Ok important_sentences, []).
Proof.
  intros Hn. unfold select_from_cluster.
  destruct (filter_by_label_shape sentences clusters i sentences_labelled)
    as (cs & Hcs & Hiff).
  destruct (filter_by_label_shape embeddings clusters i embeddings_labelled)
    as (ce & Hce & _).
  unfold mask_index. rewrite embeddings_labelled, Nat.eqb_refl, Hcs, Hce.
  unfold lift. rewrite !bind_ok.
  rewrite (proj2 Hiff Hn). reflexivity.
Qed.

(** The iteration for a cluster that received a sentence hands the numpy
    centroid to torch, which raises. *)
Lemma select_from_cluster_raises (important_sentences : list string) (i : Z) :
  0 <= i < Z.of_nat (length cluster_centers_) ->
  In i clusters ->
  select_from_cluster self sentences embeddings clusters cluster_centers_
                      important_sentences i
  = (Raise centroid_type_error, []).
Proof.
  intros Hi Hin. unfold select_from_cluster.
  destruct (filter_by_label_shape sentences clusters i sentences_labelled)
    as (cs & Hcs & Hiff).
  destruct (filter_by_label_shape embeddings clusters i embeddings_labelled)
    as (ce & Hce & _).
  destruct (py_index_in_range cluster_centers_ i Hi) as (center & Hcenter).
  unfold mask_index. rewrite embeddings_labelled, Nat.eqb_refl, Hcs, Hce.
  unfold lift. rewrite !bind_ok.
  destruct cs as [|first rest].
  - exfalso. exact (proj1 Hiff eq_refl Hin).
  - cbn [length]. rewrite Hcenter.
    replace (0 <? Z.of_nat (S (length rest))) with true
      by (symmetry; apply Z.ltb_lt; lia).
    reflexivity.
Qed.

(** The loop over the cluster indices raises at the first index that
    received a sentence. *)
Lemma select_loop_raises (indices : list Z) :
  Forall (fun i => 0 <= i < Z.of_nat (length cluster_centers_)) indices ->
  (exists i, In i indices /\ In i clusters) ->
  forall important_sentences,
    for_each (select_from_cluster self sentences embeddings clusters
                                  cluster_centers_)
             indices important_sentences
    = (Raise centroid_type_error, []).
Proof.
  induction indices as [|j rest IH]; intros Hbounds (i & Hi & Hused) acc.
  - destruct Hi.
  - inversion Hbounds as [|? ? Hj Hrest]; subst.
    cbn [for_each].
    destruct (In_dec Z.eq_dec j clusters) as [Hin | Hout].
    + rewrite (select_from_cluster_raises acc j Hj Hin). reflexivity.
    + rewrite (select_from_cluster_empty acc j Hout), bind_ok.
      destruct Hi as [-> | Hi]; [contradiction|].
      rewrite (IH Hrest (ex_intro _ i (conj Hi Hused)) acc). reflexivity.
Qed.

End Selector.

Lemma range_bounds (n : Z) : Forall (fun i => 0 <= i < n) (range n).
Proof.
  unfold range. apply Forall_forall. intros i Hi.
  apply in_map_iff in Hi as (m & <- & Hm). apply in_seq in Hm. lia.
Qed.

(** C7 fails on the code: with more sentences than the target count and a
    k-means answer of the documented shape (one label in [0 .. k-1] for
    each sentence, [k] centroids), the selector emits no sentence at all:
    at the first cluster index that received a sentence it hands the numpy
    centroid to torch's [cosine_similarity], and the call raises the
    [TypeError], after the one k-means call. *)
Theorem select_raises_type_error (self : BertSummarizer)
    (sentences : list string) (embeddings : list (Emb self))
    (num_sentences : Z) (clusters : list Z)
    (cluster_centers_ : list (Centroid self)) :
  1 <= num_sentences ->
  num_sentences < Z.of_nat (length sentences) ->
  length embeddings = length sentences ->
  KMeans self num_sentences embeddings = Ok (clusters, cluster_centers_) ->
  length clusters = length sentences ->
  Z.of_nat (length cluster_centers_) = num_sentences ->
  Forall (fun c => 0 <= c < num_sentences) clusters ->
  _select_important_sentences self sentences embeddings num_sentences
  = (Raise centroid_type_error, [CallKMeans num_sentences]).
Proof.
  intros Hpos Hlt Hemb Hk Hcl Hcen Hlabels.
  unfold _select_important_sentences.
  replace (Z.of_nat (length sentences) <=? num_sentences) with false
    by (symmetry; apply Z.leb_gt; lia).
  rewrite Hk. unfold call.
  assert (Hused : exists i, In i (range num_sentences) /\ In i clusters).
  { destruct clusters as [|c rest]; [simpl in Hcl; lia|].
    exists c. split; [|left; reflexivity].
    inversion Hlabels as [|? ? Hc _]; subst.
    unfold range. apply in_map_iff. exists (Z.to_nat c).
    split; [lia | apply in_seq; lia]. }
  assert (Hloop := select_loop_raises self sentences embeddings clusters
                     cluster_centers_ (eq_sym Hcl)
                     (eq_trans Hemb (eq_sym Hcl)) (range num_sentences)).
  rewrite Hcen in Hloop.
  specialize (Hloop (range_bounds num_sentences) Hused []).
  cbn [bind]. rewrite Hloop. reflexivity.
Qed.

(** * The methods on the small instance *)

Lemma select_returns_short_input_witness :
  Z.of_nat (length ["a"; "bb"]) <= 2 /\
  _select_important_sentences Toy.self ["a"; "bb"] [1; 2] 2
  = (Ok ["a"; "bb"], []).
Proof.
  assert (H : Z.of_nat (length ["a"; "bb"]) <= 2) by (simpl; lia).
  split; [exact H|].
  apply (select_returns_short_input Toy.self ["a"; "bb"] [1; 2] 2 H).
Defined.

Lemma select_raises_type_error_witness :
  1 <= 2 /\
  2 < Z.of_nat (length ["a"; "bb"; "c"]) /\
  KMeans Toy.self 2 [1; 2; 1] = Ok ([1; 0; 1], [0; 1]) /\
  _select_important_sentences Toy.self ["a"; "bb"; "c"] [1; 2; 1] 2
  = (Raise centroid_type_error, [CallKMeans 2]).
Proof.
  assert (Hpos : 1 <= 2) by lia.
  assert (Hlt : 2 < Z.of_nat (length ["a"; "bb"; "c"])) by (simpl; lia).
  assert (Hk : KMeans Toy.self 2 [1; 2; 1] = Ok ([1; 0; 1], [0; 1]))
    by reflexivity.
  assert (Hlabels : Forall (fun c => 0 <= c < 2) [1; 0; 1]).
  { constructor; [lia|]. constructor; [lia|]. constructor; [lia|].
    constructor. }
  split; [exact Hpos|]. split; [exact Hlt|]. split; [exact Hk|].
  apply (select_raises_type_error Toy.self ["a"; "bb"; "c"] [1; 2; 1] 2
           [1; 0; 1] [0; 1] Hpos Hlt eq_refl Hk eq_refl eq_refl Hlabels).
Defined.

(** The loop raises at cluster 0 when only cluster 0 received sentences,
    and no sentence comes out. *)
Example select_raises_on_first_cluster :
  Toy.labels 2 [2; 4; 2] = [0; 0; 0] /\
  _select_important_sentences Toy.self ["bb"; "dddd"; "ff"] [2; 4; 2] 2
  = (Raise centroid_type_error, [CallKMeans 2]).
Proof. split; reflexivity. Qed.

(** Through [summarize]: three sentences at ratio 1/2 give a target count of
    1, the one cluster receives all of them, and the call returns the
    failure dictionary of the [TypeError]. *)
Example summarize_three_sentences_fails :
  summarize Toy.self "a. bb. c" (Finite (1 # 2))
  = (Ok {| summary := "";
           metadata := ErrorInfo "cosine_similarity(): argument 'x1' (position 1) must be Tensor, not numpy.ndarray" |},
     [CallBert "a"; CallBert "bb"; CallBert "c."; CallKMeans 1;
      LogError "Error during summarization: cosine_similarity(): argument 'x1' (position 1) must be Tensor, not numpy.ndarray"]).
Proof. vm_compute. reflexivity. Qed.


(** Scenario A: three sentences at ratio 0.3 give a target count of 1. *)
Example target_count_three_sentences :
  num_sentences_of Toy.self 3 (Finite (3 # 10))
  = Ok (target_count Toy.self 3 (3 # 10)) /\
  target_count Toy.self 3 (3 # 10) = 1.
Proof. split; vm_compute; reflexivity. Qed.



(** A ratio so large that the float product is infinite is not rejected
    either: [int] raises on the product and the call returns the failure
    dictionary of the [OverflowError]. *)
Example summarize_overflowing_ratio :
  summarize Toy.self "a. b" (Finite (inject_Z (2 ^ 1023)))
  = (Ok {| summary := "";
           metadata := ErrorInfo "cannot convert float infinity to integer" |},
     [CallBert "a"; CallBert "b.";
      LogError "Error during summarization: cannot convert float infinity to integer"]).
Proof. vm_compute. reflexivity. Qed.

(** A NaN ratio makes [int] raise a [ValueError]. *)
Example summarize_nan_ratio :
  summarize Toy.self "a" NaN
  = (Ok {| summary := "";
           metadata := ErrorInfo "cannot convert float NaN to integer" |},
     [CallBert "a.";
      LogError "Error during summarization: cannot convert float NaN to integer"]).
Proof. vm_compute. reflexivity. Qed.

(** The empty text on the small instance: the capabilities succeed on the
    chunk ["."] and the division by the length of the text raises. *)
Example summarize_empty_text_on_instance :
  summarize Toy.self "" (Finite (3 # 10))
  = (Ok {| summary := ""; metadata := ErrorInfo "division by zero" |},
     [CallBert "."; CallSummarizer ".";
      LogError "Error during summarization: division by zero"]).
Proof. vm_compute. reflexivity. Qed.

(** A text of two chunks whose second chunk the encoder refuses: the first
    chunk is embedded and compressed, and its summary is not returned. *)
Lemma summarize_all_or_nothing_witness :
  _chunk_text two_chunk_text 512
  = [(string_of_list_ascii (repeat "a"%char 300) ++ ".")%string; second_chunk] /\
  stage_fails (Toy.failing_on second_chunk) (Finite (3 # 10)) second_chunk /\
  exists e msg failing,
    In failing (_chunk_text two_chunk_text 512) /\
    fst (summarize_chunk (Toy.failing_on second_chunk) (Finite (3 # 10)) []
                         failing) = Raise e /\
    fst (summarize_body (Toy.failing_on second_chunk) two_chunk_text
                        (Finite (3 # 10))) = Raise e /\
    describes e msg /\
    summarize (Toy.failing_on second_chunk) two_chunk_text (Finite (3 # 10))
    = (Ok {| summary := ""; metadata := ErrorInfo msg |},
       snd (summarize_body (Toy.failing_on second_chunk) two_chunk_text
                           (Finite (3 # 10)))
       ++ [LogError ("Error during summarization: " ++ msg)%string]).
Proof.
  assert (Hchunks : _chunk_text two_chunk_text 512
            = [(string_of_list_ascii (repeat "a"%char 300) ++ ".")%string;
               second_chunk]) by (vm_compute; reflexivity).
  assert (Hfail : stage_fails (Toy.failing_on second_chunk) (Finite (3 # 10))
                              second_chunk).
  { apply embedding_fails
      with (sentence := second_chunk) (e := OtherError "encoder unavailable").
    - vm_compute. left. reflexivity.
    - vm_compute. reflexivity. }
  split; [exact Hchunks|]. split; [exact Hfail|].
  apply (summarize_all_or_nothing (Toy.failing_on second_chunk) two_chunk_text
                                  (Finite (3 # 10)) second_chunk).
  - rewrite Hchunks. right. left. reflexivity.
  - exact Hfail.
Defined.

Example summarize_drops_first_chunk :
  summarize (Toy.failing_on second_chunk) two_chunk_text (Finite (3 # 10))
  = (Ok {| summary := ""; metadata := ErrorInfo "encoder unavailable" |},
     [CallBert (string_of_list_ascii (repeat "a"%char 300) ++ ".");
      CallSummarizer (string_of_list_ascii (repeat "a"%char 300) ++ ".");
      CallBert second_chunk;
      LogError "Error during summarization: encoder unavailable"]).
Proof. vm_compute. reflexivity. Qed.

(** * More on the chunker *)

Section ChunkerShape.

Variable max_chunk_size : Z.

Lemma sentences_length_nonneg (g : list string) : 0 <= sentences_length g.
Proof. induction g as [|x g IH]; simpl; unfold PyStr.len; lia. Qed.

Lemma sentences_length_In (g : list string) (sentence : string) :
  In sentence g -> PyStr.len sentence <= sentences_length g.
Proof.
  induction g as [|x g IH]; intros Hin; [destruct Hin|].
  simpl. destruct Hin as [-> | Hin].
  - pose proof (sentences_length_nonneg g). lia.
  - specialize (IH Hin). unfold PyStr.len in *. lia.
Qed.

Lemma sentences_length_concat (g h : list string) :
  sentences_length (g ++ h) = sentences_length g + sentences_length h.
Proof. induction g as [|x g IH]; simpl; lia. Qed.

Lemma split_not_nil (text : string) : PyStr.split text <> [].
Proof. unfold PyStr.split. destruct (PyStr.split_pieces text). discriminate. Qed.

Lemma concat_length_groups (groups : list (list string)) :
  Forall (fun g => g <> []) groups ->
  (length groups <= length (concat groups))%nat.
Proof.
  induction 1 as [|g groups Hg _ IH]; simpl; [lia|].
  rewrite length_app. destruct g; [congruence | simpl; lia].
Qed.

Lemma chunk_text_not_nil (text : string) :
  _chunk_text text max_chunk_size <> [].
Proof.
  destruct (chunk_text_groups max_chunk_size text) as (groups & -> & Hcat & _).
  destruct groups; [|discriminate].
  simpl in Hcat. symmetry in Hcat. destruct (split_not_nil _ Hcat).
Qed.

(** X1: The chunker always returns at least one chunk, at most one for each
    sentence, and no chunk is the empty string. *)
Theorem chunk_text_never_empty (text : string) :
  _chunk_text text max_chunk_size <> [] /\
  (length (_chunk_text text max_chunk_size) <= length (PyStr.split text))%nat /\
  Forall (fun c => 1 <= PyStr.len c) (_chunk_text text max_chunk_size).
Proof.
  split; [apply chunk_text_not_nil|].
  destruct (chunk_text_groups max_chunk_size text) as (groups & -> & Hcat & Hne).
  split.
  - rewrite length_map, <- Hcat. apply concat_length_groups, Hne.
  - apply Forall_forall. intros c Hc.
    apply in_map_iff in Hc as (g & <- & _).
    unfold flush. rewrite len_append_period. unfold PyStr.len. lia.
Qed.

(** X3: A sentence longer than the limit is never merged with another one: it is
    a chunk by itself, with the appended period. *)
Theorem oversized_sentence_is_its_own_chunk (text sentence : string) :
  In sentence (PyStr.split text) ->
  max_chunk_size < PyStr.len sentence ->
  In (sentence ++ ".")%string (_chunk_text text max_chunk_size).
Proof.
  intros Hin Hbig.
  destruct (chunk_text_partition max_chunk_size text) as (groups & -> & Hcat & Hok).
  rewrite <- Hcat in Hin. apply in_concat in Hin as (g & Hg & Hs).
  rewrite Forall_forall in Hok. destruct (Hok g Hg) as [_ [Hone | Hsum]].
  - destruct g as [|x [|y g]]; try discriminate.
    destruct Hs as [-> | []].
    apply in_map_iff. exists [sentence]. split; [reflexivity | exact Hg].
  - pose proof (sentences_length_In g sentence Hs). lia.
Qed.

(** While the sentences fit, the buffer takes them all. *)
Lemma fold_chunk_step_fits (sentences : list string) :
  forall st,
    current_length st + sentences_length sentences <= max_chunk_size ->
    fold_left (chunk_step max_chunk_size) sentences st
    = {| chunks := chunks st;
         current_chunk := current_chunk st ++ sentences;
         current_length := current_length st + sentences_length sentences |}.
Proof.
  induction sentences as [|sentence rest IH]; intros st Hfit; simpl.
  - rewrite app_nil_r, Z.add_0_r. destruct st; reflexivity.
  - simpl in Hfit. pose proof (sentences_length_nonneg rest) as Hrest.
    unfold chunk_step at 2.
    replace (current_length st + PyStr.len sentence >? max_chunk_size)
      with false by (symmetry; rewrite Z.gtb_ltb; apply Z.ltb_ge; lia).
    rewrite IH; simpl; [|lia].
    rewrite <- app_assoc, Z.add_assoc. reflexivity.
Qed.

(** X4: A text whose sentences fit together within the limit is one chunk: the
    text followed by a period. *)
Theorem chunk_text_fitting_text (text : string) :
  sentences_length (PyStr.split text) <= max_chunk_size ->
  _chunk_text text max_chunk_size = [(text ++ ".")%string].
Proof.
  intros Hfit. unfold _chunk_text.
  rewrite fold_chunk_step_fits by (simpl; lia).
  unfold chunk_finish. simpl.
  pose proof (split_not_nil text) as Hne.
  destruct (PyStr.split text) as [|x l] eqn:Hs; [congruence|].
  simpl. unfold flush. rewrite <- Hs, join_split. reflexivity.
Qed.

End ChunkerShape.

Section ChunkerGreedy.

Variable max_chunk_size : Z.

Lemma greedy_snoc (groups : list (list string)) (g h : list string) :
  greedy max_chunk_size (groups ++ [g]) ->
  overflows max_chunk_size g h ->
  greedy max_chunk_size ((groups ++ [g]) ++ [h]).
Proof.
  intros Hgr Hov. induction groups as [|x groups IH]; simpl in *.
  - repeat split; assumption.
  - destruct Hgr as [Hx Hrest]. split; [|apply IH, Hrest].
    destruct groups; exact Hx.
Qed.

(** Only the first sentence of the last run matters. *)
Lemma greedy_last_head (groups : list (list string)) (s : string)
    (rest rest' : list string) :
  greedy max_chunk_size (groups ++ [s :: rest]) ->
  greedy max_chunk_size (groups ++ [s :: rest']).
Proof.
  induction groups as [|x groups IH]; simpl; [auto|].
  intros [Hx Hrest]. split; [|apply IH, Hrest].
  destruct groups; exact Hx.
Qed.

Lemma greedy_of_oversized (groups tail : list (list string)) :
  Forall (fun g => max_chunk_size < sentences_length g) groups ->
  (length tail <= 1)%nat ->
  greedy max_chunk_size (groups ++ tail).
Proof.
  intros Hall Htail. induction Hall as [|g groups Hg _ IH]; simpl.
  - destruct tail as [|h [|h' tail]]; simpl in *; try lia; auto.
  - split; [|exact IH].
    destruct (groups ++ tail) as [|g' l]; [exact I|].
    unfold overflows. destruct g' as [|sentence g']; [exact I|].
    unfold PyStr.len. lia.
Qed.

Lemma chunk_runs_init : chunk_runs max_chunk_size [] chunker_init [].
Proof. repeat split; constructor. Qed.

Lemma chunk_runs_step (read : list string) (st : chunker_state)
    (groups : list (list string)) (sentence : string) :
  chunk_runs max_chunk_size read st groups ->
  exists groups',
    chunk_runs max_chunk_size (read ++ [sentence])
               (chunk_step max_chunk_size st sentence) groups'.
Proof.
  intros (Hc & Hread & Hne & Hlen & Hshape).
  unfold chunk_step.
  destruct (current_length st + PyStr.len sentence >? max_chunk_size) eqn:Hover.
  - rewrite Z.gtb_ltb in Hover. apply Z.ltb_lt in Hover.
    destruct (current_chunk st) as [|c cs] eqn:Hbuf; simpl.
    + exists (groups ++ [[sentence]]). unfold chunk_runs; simpl.
      rewrite ?Hbuf. repeat split.
      * rewrite Hc, map_app. reflexivity.
      * rewrite app_nil_r in *. rewrite concat_app. simpl.
        rewrite Hread. reflexivity.
      * apply Forall_app. split; [exact Hne|].
        constructor; [discriminate | constructor].
      * exact Hlen.
      * apply Forall_app. split; [exact Hshape|].
        constructor; [|constructor]. simpl in *. lia.
    + exists (groups ++ [c :: cs]). unfold chunk_runs; simpl. repeat split.
      * rewrite Hc, map_app. reflexivity.
      * rewrite concat_app. simpl. rewrite app_nil_r, Hread. reflexivity.
      * apply Forall_app. split; [exact Hne|].
        constructor; [discriminate | constructor].
      * lia.
      * apply greedy_snoc; [exact Hshape|].
        unfold overflows. rewrite <- Hlen. exact Hover.
  - exists groups. unfold chunk_runs; simpl. repeat split; try assumption.
    + rewrite app_assoc, Hread. reflexivity.
    + rewrite sentences_length_app. lia.
    + destruct (current_chunk st) as [|c cs]; simpl.
      * apply greedy_of_oversized; [exact Hshape | simpl; lia].
      * apply (greedy_last_head groups c cs), Hshape.
Qed.

Lemma chunk_runs_fold (sentences : list string) :
  forall read st groups,
    chunk_runs max_chunk_size read st groups ->
    exists groups',
      chunk_runs max_chunk_size (read ++ sentences)
                 (fold_left (chunk_step max_chunk_size) sentences st) groups'.
Proof.
  induction sentences as [|sentence rest IH]; intros read st groups Hinv; simpl.
  - rewrite app_nil_r. eauto.
  - replace (read ++ sentence :: rest) with ((read ++ [sentence]) ++ rest)
      by (rewrite <- app_assoc; reflexivity).
    destruct (chunk_runs_step read st groups sentence Hinv) as [groups' Hstep].
    eapply IH, Hstep.
Qed.

(** X5: The chunker is greedy: the chunks are the flushed runs of a partition of
    the sentences in which every run but the last was closed by a sentence
    that did not fit: the counted length of the run plus the length of the
    first sentence of the next run exceeds the limit. *)
Theorem chunk_text_greedy (text : string) :
  exists groups,
    _chunk_text text max_chunk_size = map flush groups /\
    concat groups = PyStr.split text /\
    Forall (fun g => g <> []) groups /\
    greedy max_chunk_size groups.
Proof.
  unfold _chunk_text, chunk_finish.
  destruct (chunk_runs_fold (PyStr.split text) [] chunker_init [] chunk_runs_init)
    as (groups & Hc & Hread & Hne & _ & Hshape).
  simpl in Hread.
  set (st := fold_left (chunk_step max_chunk_size) (PyStr.split text) chunker_init) in *.
  destruct (current_chunk st) as [|c cs] eqn:Hbuf; simpl.
  - rewrite app_nil_r in Hread. exists groups. repeat split; try assumption.
    rewrite <- (app_nil_r groups).
    apply greedy_of_oversized; [exact Hshape | simpl; lia].
  - exists (groups ++ [c :: cs]). repeat split.
    + rewrite Hc, map_app. reflexivity.
    + rewrite concat_app. simpl. rewrite app_nil_r. exact Hread.
    + apply Forall_app. split; [exact Hne|].
      constructor; [discriminate | constructor].
    + exact Hshape.
Qed.

End ChunkerGreedy.

Section ChunkResplit.

Lemma has_delim_append_period (p : string) :
  PyStr.has_delim p = false -> PyStr.has_delim (p ++ ".") = false.
Proof.
  induction p as [|c p IH]; intros H; [reflexivity|].
  destruct p as [|d p'].
  - change (String c "" ++ ".")%string with (String c (String "." "")).
    rewrite has_delim_cons.
    change (Ascii.eqb "." " ") with false. rewrite andb_false_r. reflexivity.
  - rewrite has_delim_cons in H. apply orb_false_elim in H as [E H].
    change (String c (String d p') ++ ".")%string
      with (String c (String d (p' ++ "."))).
    rewrite has_delim_cons, E. apply IH, H.
Qed.

(** A flushed run is the join of its sentences, the last one with the
    period. *)
Lemma flush_snoc (run : list string) (last_sentence : string) :
  flush (run ++ [last_sentence])
  = PyStr.join PyStr.delim (run ++ [(last_sentence ++ ".")%string]).
Proof.
  induction run as [|x run IH]; [reflexivity|].
  unfold flush in *. simpl app.
  destruct (run ++ [last_sentence]) as [|y l] eqn:H1;
    [destruct run; discriminate|].
  destruct (run ++ [(last_sentence ++ ".")%string]) as [|y' l'] eqn:H2;
    [destruct run; discriminate|].
  rewrite !join_cons_pieces, !append_assoc, IH. reflexivity.
Qed.

(** X6: Splitting a chunk, as the orchestrator does, gives back the sentences
    the chunk was made of, the last one carrying the appended period. *)
Theorem chunk_resplit (max_chunk_size : Z) (text c : string) :
  In c (_chunk_text text max_chunk_size) ->
  exists before run last_sentence after,
    PyStr.split text = before ++ run ++ last_sentence :: after /\
    PyStr.split c = run ++ [(last_sentence ++ ".")%string].
Proof.
  destruct (chunk_text_groups max_chunk_size text) as (groups & -> & Hcat & Hne).
  intros Hin. apply in_map_iff in Hin as (g & <- & Hg).
  pose proof (split_pieces_no_delim text) as Hnd. rewrite <- Hcat in Hnd.
  apply in_split in Hg as (gs1 & gs2 & ->).
  rewrite concat_app in Hcat, Hnd. simpl in Hcat, Hnd.
  apply Forall_app in Hnd as [_ Hnd]. apply Forall_app in Hnd as [Hnd _].
  apply Forall_app in Hne as [_ Hne]. inversion Hne as [|? ? Hg _]; subst.
  destruct (exists_last Hg) as (run & last_sentence & ->).
  exists (concat gs1), run, last_sentence, (concat gs2). split.
  - rewrite <- Hcat, <- app_assoc. reflexivity.
  - rewrite flush_snoc. apply split_join.
    + destruct run; discriminate.
    + apply Forall_app in Hnd as [Hrun Hlast].
      apply Forall_app. split; [exact Hrun|].
      inversion Hlast; subst.
      constructor; [apply has_delim_append_period; assumption | constructor].
Qed.

End ChunkResplit.

(** * More on the embedder *)

Section Embedder.

Variable self : BertSummarizer.

Lemma embedding_loop_spec (sentences : list string) :
  forall (acc embeddings : list (Emb self)) (w : list event),
    for_each (fun embeddings sentence =>
                sentence_embedding <- call (CallBert sentence) (bert_cls self sentence) ;;
                ret (embeddings ++ [sentence_embedding]))
             sentences acc = (Ok embeddings, w) ->
    exists rows,
      embeddings = acc ++ rows /\
      Forall2 (fun sentence row => bert_cls self sentence = Ok row) sentences rows /\
      w = map CallBert sentences.
Proof.
  induction sentences as [|sentence rest IH]; intros acc embeddings w H.
  - injection H as <- <-. exists []. rewrite app_nil_r.
    repeat split. constructor.
  - simpl in H. destruct (bert_cls self sentence) as [row|e] eqn:Hrow;
      [|discriminate].
    simpl in H.
    destruct (for_each _ rest (acc ++ [row])) as [[r|e] w'] eqn:Hrest;
      [|discriminate].
    injection H as <- <-.
    destruct (IH _ _ _ Hrest) as (rows & -> & Hall & ->).
    exists (row :: rows). rewrite <- app_assoc. repeat split.
    constructor; assumption.
Qed.

(** X7: When the embedder returns, it returns one row for each sentence, in the
    order of the sentences, each the encoder's row for that sentence, and it
    has called the encoder once on each sentence, in order. *)
Theorem get_sentence_embeddings_rows (sentences : list string)
    (embeddings : list (Emb self)) (w : list event) :
  _get_sentence_embeddings self sentences = (Ok embeddings, w) ->
  Forall2 (fun sentence row => bert_cls self sentence = Ok row)
          sentences embeddings /\
  w = map CallBert sentences.
Proof.
  unfold _get_sentence_embeddings. intros H.
  destruct (for_each _ sentences []) as [[rows|e] w'] eqn:Hloop;
    [|discriminate].
  destruct (embedding_loop_spec _ _ _ _ Hloop) as (rows' & -> & Hall & ->).
  rewrite bind_ok in H. simpl in H.
  destruct rows'; [discriminate|]. simpl in H.
  injection H as <- <-. rewrite app_nil_r. split; [exact Hall | reflexivity].
Qed.

Lemma embedding_loop_stops (before : list string) :
  forall (acc : list (Emb self)) (sentence : string) (after : list string)
         (e : exn),
    Forall (fun s => exists row, bert_cls self s = Ok row) before ->
    bert_cls self sentence = Raise e ->
    for_each (fun embeddings sentence =>
                sentence_embedding <- call (CallBert sentence) (bert_cls self sentence) ;;
                ret (embeddings ++ [sentence_embedding]))
             (before ++ sentence :: after) acc
    = (Raise e, map CallBert (before ++ [sentence])).
Proof.
  induction before as [|s before IH]; intros acc sentence after e Hok Hbad.
  - simpl. rewrite Hbad. reflexivity.
  - inversion Hok as [|? ? [row Hrow] Hok']; subst.
    specialize (IH (acc ++ [row]) sentence after e Hok' Hbad).
    simpl in IH |- *. rewrite Hrow. simpl. rewrite IH. reflexivity.
Qed.

(** X8: The embedder stops at the first sentence the encoder refuses: it raises
    the encoder's exception and the sentences after that one are not
    encoded. *)
Theorem get_sentence_embeddings_stops (before after : list string)
    (sentence : string) (e : exn) :
  Forall (fun s => exists row, bert_cls self s = Ok row) before ->
  bert_cls self sentence = Raise e ->
  _get_sentence_embeddings self (before ++ sentence :: after)
  = (Raise e, map CallBert (before ++ [sentence])).
Proof.
  intros Hok Hbad. unfold _get_sentence_embeddings.
  rewrite (embedding_loop_stops before [] sentence after e Hok Hbad).
  reflexivity.
Qed.

End Embedder.

(** * More on the selector *)

Section Events.

Variable P : event -> Prop.

Lemma events_bind {A B : Type} (m : M A) (f : A -> M B) :
  Forall P (snd m) ->
  (forall a, Forall P (snd (f a))) ->
  Forall P (snd (bind m f)).
Proof.
  intros Hm Hf. destruct m as [[a|e] w]; simpl in *; [|exact Hm].
  specialize (Hf a). destruct (f a) as [r w']. simpl in *.
  apply Forall_app. split; assumption.
Qed.

Lemma events_for_each {A S : Type} (body : S -> A -> M S) :
  (forall acc x, Forall P (snd (body acc x))) ->
  forall items acc, Forall P (snd (for_each body items acc)).
Proof.
  intros Hbody items. induction items as [|x rest IH]; intros acc; simpl.
  - constructor.
  - apply events_bind; [apply Hbody | intros acc'; apply IH].
Qed.

End Events.

Section SelectorOutput.

Variable self : BertSummarizer.
Variable sentences : list string.
Variable embeddings : list (Emb self).

Lemma py_index_In {A : Type} (l : list A) (i : Z) (a : A) :
  py_index l i = Ok a -> In a l.
Proof.
  unfold py_index.
  destruct ((_ <? 0) || _); [discriminate|].
  destruct (nth_error l _) eqn:H; [|discriminate].
  intros [= <-]. eapply nth_error_In, H.
Qed.

(** One iteration emits no event and, when it returns, has appended at most
    one sentence, taken from the input. *)
Lemma select_from_cluster_out (clusters : list Z)
    (cluster_centers_ : list (Centroid self))
    (important_sentences : list string) (i : Z) :
  snd (select_from_cluster self sentences embeddings clusters
                           cluster_centers_ important_sentences i) = [] /\
  forall out,
    fst (select_from_cluster self sentences embeddings clusters
                             cluster_centers_ important_sentences i) = Ok out ->
    out = important_sentences \/
    exists s, In s sentences /\ out = important_sentences ++ [s].
Proof.
  unfold select_from_cluster, lift.
  destruct (filter_by_label sentences clusters i) as [cs|e] eqn:Hcs;
    [|split; [reflexivity | discriminate]].
  rewrite bind_ok. cbn [fst snd app].
  destruct (mask_index embeddings clusters i) as [ce|e];
    [|split; [reflexivity | discriminate]].
  rewrite bind_ok. cbn [fst snd app].
  destruct (0 <? Z.of_nat (length cs));
    [|split; [reflexivity | intros out [= <-]; left; reflexivity]].
  destruct (py_index cluster_centers_ i) as [center|e];
    [|split; [reflexivity | discriminate]].
  rewrite bind_ok. cbn [fst snd app].
  split; [reflexivity | discriminate].
Qed.

Lemma select_loop_out (clusters : list Z)
    (cluster_centers_ : list (Centroid self)) (indices : list Z) :
  forall important_sentences,
    snd (for_each (select_from_cluster self sentences embeddings clusters
                                       cluster_centers_)
                  indices important_sentences) = [] /\
    forall out,
      fst (for_each (select_from_cluster self sentences embeddings clusters
                                         cluster_centers_)
                    indices important_sentences) = Ok out ->
      exists picked,
        out = important_sentences ++ picked /\
        (forall s, In s picked -> In s sentences) /\
        (length picked <= length indices)%nat.
Proof.
  induction indices as [|i rest IH]; intros acc.
  - split; [reflexivity|]. intros out [= <-]. exists [].
    rewrite app_nil_r. repeat split; [intros s [] | simpl; lia].
  - simpl.
    destruct (select_from_cluster_out clusters cluster_centers_ acc i)
      as [Hev Hout].
    destruct (select_from_cluster self sentences embeddings clusters
                                  cluster_centers_ acc i) as [[acc'|e] w];
      simpl in Hev; subst w.
    + rewrite bind_ok. cbn [fst snd app].
      destruct (IH acc') as [Hev' Hout']. split; [exact Hev'|].
      intros out Hres. destruct (Hout' out Hres) as (picked & -> & Hin & Hlen).
      destruct (Hout acc' eq_refl) as [-> | (s & Hs & ->)].
      * exists picked. repeat split; [exact Hin | simpl; lia].
      * exists (s :: picked). rewrite <- app_assoc. repeat split.
        -- intros s' [<- | Hs']; auto.
        -- simpl. lia.
    + split; [reflexivity | discriminate].
Qed.


(** X10: The selector's only capability call is one k-means fit, made exactly
    when there are more sentences than the target count, whether it then
    returns or raises: it never encodes, compresses or logs. *)
Theorem select_events (num_sentences : Z) :
  snd (_select_important_sentences self sentences embeddings num_sentences)
  = if Z.of_nat (length sentences) <=? num_sentences then []
    else [CallKMeans num_sentences].
Proof.
  unfold _select_important_sentences.
  destruct (Z.of_nat (length sentences) <=? num_sentences); [reflexivity|].
  unfold call.
  destruct (KMeans self num_sentences embeddings) as [[clusters centers]|e];
    [|reflexivity].
  rewrite bind_ok. cbn [fst snd].
  destruct (select_loop_out clusters centers (range num_sentences) [])
    as [-> _].
  reflexivity.
Qed.

Lemma select_no_log (num_sentences : Z) :
  Forall (fun ev => is_log ev = false)
         (snd (_select_important_sentences self sentences embeddings
                                           num_sentences)).
Proof.
  unfold _select_important_sentences.
  destruct (Z.of_nat (length sentences) <=? num_sentences); [constructor|].
  apply events_bind; [repeat constructor|].
  intros [clusters centers].
  destruct (select_loop_out clusters centers (range num_sentences) [])
    as [-> _].
  constructor.
Qed.

End SelectorOutput.

(** * More on the orchestrator *)

Section OrchestratorShape.

Variable self : BertSummarizer.

Lemma embeddings_no_log (sentences : list string) :
  Forall (fun ev => is_log ev = false)
         (snd (_get_sentence_embeddings self sentences)).
Proof.
  unfold _get_sentence_embeddings. apply events_bind.
  - apply events_for_each. intros acc sentence.
    apply events_bind; [repeat constructor | intros; constructor].
  - intros rows. destruct rows; constructor.
Qed.

Lemma summarize_chunk_no_log (compression_ratio : pyfloat)
    (all_summaries : list string) (chunk : string) :
  Forall (fun ev => is_log ev = false)
         (snd (summarize_chunk self compression_ratio all_summaries chunk)).
Proof.
  unfold summarize_chunk. apply events_bind; [apply embeddings_no_log|].
  intros embeddings. apply events_bind; [constructor|].
  intros num_sentences. apply events_bind.
  - apply select_no_log.
  - intros important. apply events_bind; [repeat constructor|].
    intros; constructor.
Qed.

Lemma summarize_body_no_log (text : string) (compression_ratio : pyfloat) :
  Forall (fun ev => is_log ev = false)
         (snd (summarize_body self text compression_ratio)).
Proof.
  unfold summarize_body. apply events_bind.
  - apply events_for_each. intros acc chunk. apply summarize_chunk_no_log.
  - intros all_summaries. apply events_bind.
    + unfold true_div. destruct (_ =? 0); constructor.
    + intros; constructor.
Qed.

(** X12: [summarize] never raises, and it logs exactly when it fails: a failure
    dictionary has an empty summary and its error message is the one of the
    single log record, the last event; a success dictionary comes with no
    log record. *)
Theorem summarize_logs_iff_failure (text : string)
    (compression_ratio : pyfloat) :
  exists r w,
    summarize self text compression_ratio = (Ok r, w) /\
    match metadata r with
    | ErrorInfo msg =>
        summary r = "" /\
        exists w0,
          w = w0 ++ [LogError ("Error during summarization: " ++ msg)%string] /\
          Forall (fun ev => is_log ev = false) w0
    | Stats _ _ _ _ => Forall (fun ev => is_log ev = false) w
    end.
Proof.
  pose proof (summarize_body_no_log text compression_ratio) as Hlog.
  unfold summarize.
  destruct (summarize_body self text compression_ratio) as [[r|e] w] eqn:Hbody;
    simpl in Hlog.
  - exists r, w. split; [reflexivity|].
    unfold summarize_body in Hbody.
    destruct (for_each _ _ _) as [[alls|e] w1]; [|discriminate].
    rewrite bind_ok in Hbody. unfold true_div in Hbody.
    destruct (_ =? 0); [discriminate|].
    simpl in Hbody. injection Hbody as <- _. exact Hlog.
  - eexists. eexists. split; [reflexivity|]. simpl.
    split; [reflexivity|]. exists w. split; [reflexivity | exact Hlog].
Qed.

(** X13: A success dictionary is only returned for a non-empty text; its
    statistics are the length of the text, the length of the returned
    summary and the number of chunks, which is at least 1. *)
Theorem summarize_success_shape (text : string)
    (compression_ratio : pyfloat) (r : SummaryResult) (w : list event)
    (original_length summary_length num_chunks : Z) (ratio : Q) :
  summarize self text compression_ratio = (Ok r, w) ->
  metadata r = Stats original_length summary_length ratio num_chunks ->
  text <> "" /\
  original_length = PyStr.len text /\ 1 <= original_length /\
  summary_length = PyStr.len (summary r) /\
  ratio = fl self (inject_Z summary_length / inject_Z original_length)%Q /\
  num_chunks = Z.of_nat (length (_chunk_text text 512)) /\ 1 <= num_chunks.
Proof.
  unfold summarize, summarize_body. intros H Hmeta.
  destruct (for_each _ _ _) as [[alls|e] w1].
  - rewrite bind_ok in H. unfold true_div in H.
    destruct (PyStr.len text =? 0) eqn:E.
    + simpl in H. injection H as <- _. discriminate.
    + simpl in H. injection H as <- _. simpl in Hmeta.
      injection Hmeta as <- <- <- <-.
      apply Z.eqb_neq in E.
      assert (Hne : text <> "") by (intros ->; apply E; reflexivity).
      pose proof (chunk_text_not_nil 512 text) as Hch.
      repeat split; try reflexivity; try assumption.
      * unfold PyStr.len in *. lia.
      * destruct (_chunk_text text 512); [congruence | simpl; lia].
  - simpl in H. injection H as <- _. discriminate.
Qed.

End OrchestratorShape.

Section OrchestratorComposition.

Variable self : BertSummarizer.
Variable compression_ratio : pyfloat.

(** The accumulator only receives the chunk's summary: the processing of a
    chunk does not depend on the summaries of the chunks before it. *)
Lemma summarize_chunk_acc (all_summaries : list string) (chunk : string) :
  summarize_chunk self compression_ratio all_summaries chunk
  = match summarize_chunk self compression_ratio [] chunk with
    | (Ok l, w) => (Ok (all_summaries ++ l), w)
    | (Raise e, w) => (Raise e, w)
    end.
Proof.
  unfold summarize_chunk.
  destruct (_get_sentence_embeddings self (PyStr.split chunk))
    as [[embeddings|e] w1]; [|reflexivity].
  rewrite !bind_ok. cbn [fst snd].
  destruct (num_sentences_of self _ compression_ratio) as [k|e];
    [|reflexivity].
  unfold lift. rewrite !bind_ok. cbn [fst snd].
  destruct (_select_important_sentences self _ embeddings k)
    as [[important|e] w2]; [|reflexivity].
  rewrite !bind_ok. cbn [fst snd]. unfold call.
  destruct (summarizer self _ _ _) as [s|e]; reflexivity.
Qed.

Lemma summarize_chunk_one (chunk : string) (l : list string) (w : list event) :
  summarize_chunk self compression_ratio [] chunk = (Ok l, w) ->
  exists s, l = [s].
Proof.
  unfold summarize_chunk.
  destruct (_get_sentence_embeddings self (PyStr.split chunk))
    as [[embeddings|e] w1]; [|discriminate].
  rewrite !bind_ok. cbn [fst snd].
  destruct (num_sentences_of self _ compression_ratio) as [k|e];
    [|discriminate].
  unfold lift. rewrite !bind_ok. cbn [fst snd].
  destruct (_select_important_sentences self _ embeddings k)
    as [[important|e] w2]; [|discriminate].
  rewrite !bind_ok. cbn [fst snd]. unfold call.
  destruct (summarizer self _ _ _) as [s|e]; [|discriminate].
  simpl. intros [= <- _]. eauto.
Qed.

Lemma summarize_loop_composes (chunks : list string) :
  forall acc all_summaries w,
    for_each (summarize_chunk self compression_ratio) chunks acc
    = (Ok all_summaries, w) ->
    exists sums,
      all_summaries = acc ++ sums /\
      Forall2 (fun chunk s =>
                 exists w', summarize_chunk self compression_ratio [] chunk
                            = (Ok [s], w'))
              chunks sums.
Proof.
  induction chunks as [|chunk rest IH]; intros acc alls w H.
  - injection H as <- _. exists []. rewrite app_nil_r. split; constructor.
  - cbn [for_each] in H. rewrite summarize_chunk_acc in H.
    destruct (summarize_chunk self compression_ratio [] chunk)
      as [[l|e] w1] eqn:Hchunk; [|discriminate].
    destruct (summarize_chunk_one _ _ _ Hchunk) as [s ->].
    rewrite bind_ok in H.
    destruct (for_each _ rest (acc ++ [s])) as [[r|e] w2] eqn:Hrest;
      [|discriminate].
    simpl in H. injection H as <- _.
    destruct (IH _ _ _ Hrest) as (sums & -> & Hall).
    exists (s :: sums). rewrite <- app_assoc. split; [reflexivity|].
    constructor; [eauto | exact Hall].
Qed.

(** X14: The summary of a success dictionary is made of one summary for each
    chunk, in the order of the chunks and joined by single spaces, each
    being what the pipeline yields on that chunk taken alone. *)
Theorem summarize_composes (text : string) (r : SummaryResult)
    (w : list event) (original_length summary_length num_chunks : Z)
    (ratio : Q) :
  summarize self text compression_ratio = (Ok r, w) ->
  metadata r = Stats original_length summary_length ratio num_chunks ->
  exists sums,
    summary r = PyStr.join " " sums /\
    Forall2 (fun chunk s =>
               exists w', summarize_chunk self compression_ratio [] chunk
                          = (Ok [s], w'))
            (_chunk_text text 512) sums.
Proof.
  unfold summarize, summarize_body. intros H Hmeta.
  destruct (for_each _ _ _) as [[alls|e] w1] eqn:Hloop.
  - rewrite bind_ok in H. unfold true_div in H.
    destruct (PyStr.len text =? 0).
    + simpl in H. injection H as <- _. discriminate.
    + simpl in H. injection H as <- _. simpl.
      destruct (summarize_loop_composes _ _ _ _ Hloop) as (sums & -> & Hall).
      exists sums. split; [reflexivity | exact Hall].
  - simpl in H. injection H as <- _. discriminate.
Qed.

Lemma embeddings_one_sentence (chunk : string) (row : Emb self) :
  bert_cls self chunk = Ok row ->
  _get_sentence_embeddings self [chunk] = (Ok [row], [CallBert chunk]).
Proof.
  intros Hrow. unfold _get_sentence_embeddings. simpl.
  rewrite Hrow. reflexivity.
Qed.

Lemma select_one_sentence (chunk : string) (row : Emb self) (k : Z) :
  1 <= k ->
  _select_important_sentences self [chunk] [row] k = (Ok [chunk], []).
Proof.
  intros Hk. unfold _select_important_sentences.
  replace (Z.of_nat (length [chunk]) <=? k) with true
    by (symmetry; apply Z.leb_le; simpl; lia).
  reflexivity.
Qed.

(** X15: A chunk of one sentence is never clustered, for every ratio for
    which the target count [max(1, int(1 * ratio))] is computed: it is
    encoded once and handed whole to the compressor. *)
Theorem summarize_chunk_single_sentence (all_summaries : list string)
    (chunk s : string) (row : Emb self) (num_sentences : Z) :
  PyStr.has_delim chunk = false ->
  bert_cls self chunk = Ok row ->
  num_sentences_of self 1 compression_ratio = Ok num_sentences ->
  summarizer self chunk (max_length self) (min_length self) = Ok s ->
  summarize_chunk self compression_ratio all_summaries chunk
  = (Ok (all_summaries ++ [s]), [CallBert chunk; CallSummarizer chunk]).
Proof.
  intros Hd Hrow Hnum Hs. unfold summarize_chunk.
  rewrite (split_no_delim _ Hd).
  rewrite (embeddings_one_sentence chunk row Hrow), bind_ok. cbn [fst snd].
  change (Z.of_nat (length [chunk])) with 1. rewrite Hnum.
  unfold lift. rewrite bind_ok. cbn [fst snd].
  rewrite (select_one_sentence chunk row _ (num_sentences_of_pos _ _ _ _ Hnum)),
    bind_ok.
  cbn [fst snd].
  change (PyStr.join " " [chunk]) with chunk.
  rewrite Hs. reflexivity.
Qed.

(** X11: A chunk with more sentences than its target count is never
    summarized: once its sentences are encoded and k-means has answered
    with one label in [0 .. k-1] for each sentence and [k] centroids, the
    selection raises the [TypeError] of the numpy centroid, and the
    compressor is not called. *)
Theorem summarize_chunk_raises_type_error (all_summaries : list string)
    (chunk : string) (embeddings : list (Emb self)) (w : list event)
    (num_sentences : Z) (clusters : list Z)
    (cluster_centers_ : list (Centroid self)) :
  _get_sentence_embeddings self (PyStr.split chunk) = (Ok embeddings, w) ->
  num_sentences_of self (Z.of_nat (length (PyStr.split chunk)))
                   compression_ratio = Ok num_sentences ->
  num_sentences < Z.of_nat (length (PyStr.split chunk)) ->
  KMeans self num_sentences embeddings = Ok (clusters, cluster_centers_) ->
  length clusters = length (PyStr.split chunk) ->
  Z.of_nat (length cluster_centers_) = num_sentences ->
  Forall (fun c => 0 <= c < num_sentences) clusters ->
  summarize_chunk self compression_ratio all_summaries chunk
  = (Raise centroid_type_error, w ++ [CallKMeans num_sentences]).
Proof.
  intros Hemb Hnum Hlt Hk Hcl Hcen Hlabels.
  pose proof (embeddings_length self _ _ _ Hemb) as Hrows.
  pose proof (num_sentences_of_pos _ _ _ _ Hnum) as Hpos.
  unfold summarize_chunk.
  rewrite Hemb, bind_ok. cbn [fst snd].
  rewrite Hnum. unfold lift. rewrite bind_ok. cbn [fst snd].
  unfold _select_important_sentences.
  replace (Z.of_nat (length (PyStr.split chunk)) <=? num_sentences) with false
    by (symmetry; apply Z.leb_gt; lia).
  rewrite Hk. unfold call.
  assert (Hused : exists i, In i (range num_sentences) /\ In i clusters).
  { destruct clusters as [|c rest].
    - simpl in Hcl. lia.
    - exists c. split; [|left; reflexivity].
      inversion Hlabels as [|? ? Hc _]; subst.
      unfold range. apply in_map_iff. exists (Z.to_nat c).
      split; [lia | apply in_seq; lia]. }
  assert (Hloop := select_loop_raises self (PyStr.split chunk) embeddings
                     clusters cluster_centers_ (eq_sym Hcl)
                     (eq_trans Hrows (eq_sym Hcl)) (range num_sentences)).
  rewrite Hcen in Hloop.
  specialize (Hloop (range_bounds num_sentences) Hused []).
  cbn [bind]. rewrite Hloop. cbn [bind app]. reflexivity.
Qed.

End OrchestratorComposition.

Lemma chunk_text_no_delim (text : string) (max_chunk_size : Z) :
  PyStr.has_delim text = false ->
  _chunk_text text max_chunk_size = [(text ++ ".")%string].
Proof.
  intros Hd. destruct (Z_lt_le_dec max_chunk_size (PyStr.len text)) as [H | H].
  - apply chunk_text_oversized; assumption.
  - unfold _chunk_text. rewrite (split_no_delim _ Hd).
    rewrite fold_chunk_step_fits by (simpl; lia). reflexivity.
Qed.

(** X16: A non-empty text with no delimiter in it, of any length, is encoded and
    compressed as the single sentence [text + '.'], for every ratio for
    which the target count [max(1, int(1 * ratio))] is computed, and the
    compressor's answer is the summary of the success dictionary. *)
Theorem summarize_single_sentence_text (self : BertSummarizer)
    (compression_ratio : pyfloat) (text s : string) (row : Emb self)
    (num_sentences : Z) :
  PyStr.has_delim text = false ->
  text <> "" ->
  bert_cls self (text ++ ".") = Ok row ->
  num_sentences_of self 1 compression_ratio = Ok num_sentences ->
  summarizer self (text ++ ".") (max_length self) (min_length self) = Ok s ->
  summarize self text compression_ratio
  = (Ok {| summary := s;
           metadata :=
             Stats (PyStr.len text) (PyStr.len s)
                   (fl self (inject_Z (PyStr.len s) / inject_Z (PyStr.len text))%Q)
                   1 |},
     [CallBert (text ++ "."); CallSummarizer (text ++ ".")]).
Proof.
  intros Hd Hne Hrow Hnum Hs.
  assert (Hloop :
    for_each (summarize_chunk self compression_ratio) (_chunk_text text 512) []
    = (Ok [s], [CallBert (text ++ "."); CallSummarizer (text ++ ".")])).
  { rewrite (chunk_text_no_delim _ 512 Hd). cbn [for_each].
    unfold summarize_chunk.
    rewrite (split_no_delim _ (has_delim_append_period _ Hd)).
    rewrite (embeddings_one_sentence self _ row Hrow), bind_ok. cbn [fst snd].
    change (Z.of_nat (length [(text ++ ".")%string])) with 1. rewrite Hnum.
    unfold lift. rewrite bind_ok. cbn [fst snd].
    rewrite (select_one_sentence self _ row _
               (num_sentences_of_pos _ _ _ _ Hnum)), bind_ok.
    cbn [fst snd].
    change (PyStr.join " " [(text ++ ".")%string]) with (text ++ ".")%string.
    rewrite Hs. reflexivity. }
  rewrite (summarize_success self text compression_ratio _ _ Hne Hloop).
  rewrite (chunk_text_no_delim _ 512 Hd). reflexivity.
Qed.

(** * The further properties on particular inputs *)

Lemma chunk_text_budget_witness :
  In "a. bb." (_chunk_text "a. bb. c" 3) /\
  exists before g after,
    PyStr.split "a. bb. c" = before ++ g ++ after /\
    g <> [] /\
    "a. bb." = flush g /\
    PyStr.len "a. bb." = sentences_length g + 2 * (Z.of_nat (length g) - 1) + 1 /\
    (length g = 1%nat \/ sentences_length g <= 3).
Proof.
  assert (H : In "a. bb." (_chunk_text "a. bb. c" 3))
    by (vm_compute; left; reflexivity).
  split; [exact H|].
  apply (chunk_text_budget 3 "a. bb. c" "a. bb." H).
Defined.

Lemma oversized_sentence_is_its_own_chunk_witness :
  In "abcdef" (PyStr.split "x. abcdef. gh") /\
  3 < PyStr.len "abcdef" /\
  In "abcdef." (_chunk_text "x. abcdef. gh" 3).
Proof.
  assert (H1 : In "abcdef" (PyStr.split "x. abcdef. gh"))
    by (vm_compute; right; left; reflexivity).
  assert (H2 : 3 < PyStr.len "abcdef") by (vm_compute; reflexivity).
  split; [exact H1|]. split; [exact H2|].
  apply (oversized_sentence_is_its_own_chunk 3 "x. abcdef. gh" "abcdef" H1 H2).
Defined.

Lemma chunk_text_fitting_text_witness :
  sentences_length (PyStr.split "a. bb. c") <= 4 /\
  _chunk_text "a. bb. c" 4 = ["a. bb. c."].
Proof.
  assert (H : sentences_length (PyStr.split "a. bb. c") <= 4)
    by (vm_compute; discriminate).
  split; [exact H|].
  apply (chunk_text_fitting_text 4 "a. bb. c" H).
Defined.

Lemma chunk_resplit_witness :
  In "a. bb." (_chunk_text "a. bb. c" 3) /\
  exists before run last_sentence after,
    PyStr.split "a. bb. c" = before ++ run ++ last_sentence :: after /\
    PyStr.split "a. bb." = run ++ [(last_sentence ++ ".")%string].
Proof.
  assert (H : In "a. bb." (_chunk_text "a. bb. c" 3))
    by (vm_compute; left; reflexivity).
  split; [exact H|].
  apply (chunk_resplit 3 "a. bb. c" "a. bb." H).
Defined.

Lemma get_sentence_embeddings_rows_witness :
  _get_sentence_embeddings Toy.self ["a"; "bb"]
  = (Ok [1; 2], [CallBert "a"; CallBert "bb"]) /\
  Forall2 (fun sentence row => bert_cls Toy.self sentence = Ok row)
          ["a"; "bb"] [1; 2] /\
  [CallBert "a"; CallBert "bb"] = map CallBert ["a"; "bb"].
Proof.
  assert (H : _get_sentence_embeddings Toy.self ["a"; "bb"]
              = (Ok [1; 2], [CallBert "a"; CallBert "bb"])) by reflexivity.
  split; [exact H|].
  apply (get_sentence_embeddings_rows Toy.self ["a"; "bb"] [1; 2]
           [CallBert "a"; CallBert "bb"] H).
Defined.

Lemma get_sentence_embeddings_stops_witness :
  Forall (fun s => exists row, bert_cls (Toy.failing_on "bb") s = Ok row) ["a"] /\
  bert_cls (Toy.failing_on "bb") "bb" = Raise (OtherError "encoder unavailable") /\
  _get_sentence_embeddings (Toy.failing_on "bb") (["a"] ++ "bb" :: ["c"])
  = (Raise (OtherError "encoder unavailable"), map CallBert (["a"] ++ ["bb"])).
Proof.
  assert (H1 : Forall (fun s => exists row,
                         bert_cls (Toy.failing_on "bb") s = Ok row) ["a"]).
  { constructor; [|constructor]. exists 1. reflexivity. }
  assert (H2 : bert_cls (Toy.failing_on "bb") "bb"
               = Raise (OtherError "encoder unavailable")) by reflexivity.
  split; [exact H1|]. split; [exact H2|].
  apply (get_sentence_embeddings_stops (Toy.failing_on "bb") ["a"] ["c"] "bb"
           (OtherError "encoder unavailable") H1 H2).
Defined.


Lemma summarize_chunk_raises_type_error_witness :
  _get_sentence_embeddings Toy.self (PyStr.split "a. bb. c.")
  = (Ok [1; 2; 2], [CallBert "a"; CallBert "bb"; CallBert "c."]) /\
  num_sentences_of Toy.self (Z.of_nat (length (PyStr.split "a. bb. c.")))
                   (Finite (1 # 2)) = Ok 1 /\
  1 < Z.of_nat (length (PyStr.split "a. bb. c.")) /\
  KMeans Toy.self 1 [1; 2; 2] = Ok ([0; 0; 0], [0]) /\
  summarize_chunk Toy.self (Finite (1 # 2)) ["s"] "a. bb. c."
  = (Raise centroid_type_error,
     [CallBert "a"; CallBert "bb"; CallBert "c."] ++ [CallKMeans 1]).
Proof.
  assert (Hemb : _get_sentence_embeddings Toy.self (PyStr.split "a. bb. c.")
                 = (Ok [1; 2; 2], [CallBert "a"; CallBert "bb"; CallBert "c."]))
    by (vm_compute; reflexivity).
  assert (Hnum : num_sentences_of Toy.self
                   (Z.of_nat (length (PyStr.split "a. bb. c.")))
                   (Finite (1 # 2)) = Ok 1)
    by (vm_compute; reflexivity).
  assert (Hlt : 1 < Z.of_nat (length (PyStr.split "a. bb. c.")))
    by (vm_compute; reflexivity).
  assert (Hk : KMeans Toy.self 1 [1; 2; 2] = Ok ([0; 0; 0], [0]))
    by (vm_compute; reflexivity).
  assert (Hlabels : Forall (fun c => 0 <= c < 1) [0; 0; 0]).
  { constructor; [lia|]. constructor; [lia|]. constructor; [lia|].
    constructor. }
  split; [exact Hemb|]. split; [exact Hnum|]. split; [exact Hlt|].
  split; [exact Hk|].
  apply (summarize_chunk_raises_type_error Toy.self (Finite (1 # 2)) ["s"]
           "a. bb. c." [1; 2; 2] [CallBert "a"; CallBert "bb"; CallBert "c."]
           1 [0; 0; 0] [0] Hemb Hnum Hlt Hk eq_refl eq_refl Hlabels).
Defined.

Lemma summarize_success_shape_witness :
  summarize Toy.self "a. bb. c" (Finite 1)
  = (Ok {| summary := "a bb c."; metadata := Stats 8 7 (7 # 8) 1 |},
     [CallBert "a"; CallBert "bb"; CallBert "c."; CallSummarizer "a bb c."]) /\
  "a. bb. c" <> "" /\
  8 = PyStr.len "a. bb. c" /\ 1 <= 8 /\
  7 = PyStr.len "a bb c." /\
  (7 # 8) = fl Toy.self (inject_Z 7 / inject_Z 8)%Q /\
  1 = Z.of_nat (length (_chunk_text "a. bb. c" 512)) /\ 1 <= 1.
Proof.
  assert (H : summarize Toy.self "a. bb. c" (Finite 1)
    = (Ok {| summary := "a bb c."; metadata := Stats 8 7 (7 # 8) 1 |},
       [CallBert "a"; CallBert "bb"; CallBert "c."; CallSummarizer "a bb c."]))
    by (vm_compute; reflexivity).
  split; [exact H|].
  apply (summarize_success_shape Toy.self "a. bb. c" (Finite 1) _ _ 8 7 1
           (7 # 8) H eq_refl).
Defined.

Lemma summarize_composes_witness :
  summarize Toy.self "a. bb. c" (Finite 1)
  = (Ok {| summary := "a bb c."; metadata := Stats 8 7 (7 # 8) 1 |},
     [CallBert "a"; CallBert "bb"; CallBert "c."; CallSummarizer "a bb c."]) /\
  exists sums,
    "a bb c." = PyStr.join " " sums /\
    Forall2 (fun chunk s =>
               exists w', summarize_chunk Toy.self (Finite 1) [] chunk
                          = (Ok [s], w'))
            (_chunk_text "a. bb. c" 512) sums.
Proof.
  assert (H : summarize Toy.self "a. bb. c" (Finite 1)
    = (Ok {| summary := "a bb c."; metadata := Stats 8 7 (7 # 8) 1 |},
       [CallBert "a"; CallBert "bb"; CallBert "c."; CallSummarizer "a bb c."]))
    by (vm_compute; reflexivity).
  split; [exact H|].
  apply (summarize_composes Toy.self (Finite 1) "a. bb. c" _ _ 8 7 1 (7 # 8)
           H eq_refl).
Defined.

Lemma summarize_chunk_single_sentence_witness :
  PyStr.has_delim "abc." = false /\
  bert_cls Toy.self "abc." = Ok 4 /\
  num_sentences_of Toy.self 1 (Finite (1 # 100)) = Ok 1 /\
  summarizer Toy.self "abc." (max_length Toy.self) (min_length Toy.self)
  = Ok "abc." /\
  summarize_chunk Toy.self (Finite (1 # 100)) ["s"] "abc."
  = (Ok (["s"] ++ ["abc."]), [CallBert "abc."; CallSummarizer "abc."]).
Proof.
  assert (Hnum : num_sentences_of Toy.self 1 (Finite (1 # 100)) = Ok 1)
    by (vm_compute; reflexivity).
  split; [reflexivity|]. split; [reflexivity|]. split; [exact Hnum|].
  split; [reflexivity|].
  apply (summarize_chunk_single_sentence Toy.self (Finite (1 # 100)) ["s"]
           "abc." "abc." 4 1 eq_refl eq_refl Hnum eq_refl).
Defined.

Lemma summarize_single_sentence_text_witness :
  PyStr.has_delim "abc" = false /\
  "abc" <> "" /\
  num_sentences_of Toy.self 1 (Finite (1 # 100)) = Ok 1 /\
  summarize Toy.self "abc" (Finite (1 # 100))
  = (Ok {| summary := "abc.";
           metadata :=
             Stats (PyStr.len "abc") (PyStr.len "abc.")
                   (fl Toy.self (inject_Z (PyStr.len "abc.")
                                 / inject_Z (PyStr.len "abc"))%Q)
                   1 |},
     [CallBert "abc."; CallSummarizer "abc."]).
Proof.
  assert (Hne : "abc" <> "") by discriminate.
  assert (Hnum : num_sentences_of Toy.self 1 (Finite (1 # 100)) = Ok 1)
    by (vm_compute; reflexivity).
  split; [reflexivity|]. split; [exact Hne|]. split; [exact Hnum|].
  apply (summarize_single_sentence_text Toy.self (Finite (1 # 100)) "abc"
           "abc." 4 1 eq_refl Hne eq_refl Hnum eq_refl).
Defined.

(** * Dictionaries *)

Section DictFacts.

Context {K V : Type} (eqb : K -> K -> bool).
Hypothesis eqb_spec : forall x y, reflect (x = y) (eqb x y).

Lemma dict_get_set_same (d : list (K * V)) (k : K) (v : V) :
  dict_get eqb (dict_set eqb d k v) k = Some v.
Proof.
  induction d as [|[k' v'] d IH]; simpl.
  - destruct (eqb_spec k k); [reflexivity | congruence].
  - destruct (eqb_spec k' k) as [E | E]; simpl.
    + destruct (eqb_spec k' k); [reflexivity | congruence].
    + destruct (eqb_spec k' k); [congruence | exact IH].
Qed.

Lemma dict_get_set_other (d : list (K * V)) (k k' : K) (v : V) :
  k <> k' ->
  dict_get eqb (dict_set eqb d k v) k' = dict_get eqb d k'.
Proof.
  intros Hne. induction d as [|[k0 v0] d IH]; simpl.
  - destruct (eqb_spec k k'); [congruence | reflexivity].
  - destruct (eqb_spec k0 k) as [E | E]; simpl.
    + subst k0. destruct (eqb_spec k k'); [congruence | reflexivity].
    + destruct (eqb_spec k0 k'); [reflexivity | exact IH].
Qed.

Lemma dict_set_fresh (d : list (K * V)) (k : K) (v : V) :
  ~ In k (map fst d) -> dict_set eqb d k v = d ++ [(k, v)].
Proof.
  induction d as [|[k' v'] d IH]; simpl; intros Hk; [reflexivity|].
  destruct (eqb_spec k' k) as [E | E].
  - exfalso. apply Hk. left. exact E.
  - rewrite IH; [reflexivity | tauto].
Qed.

Lemma dict_set_keys (d : list (K * V)) (k : K) (v : V) :
  map fst (dict_set eqb d k v)
  = if existsb (fun kv => eqb (fst kv) k) d then map fst d
    else map fst d ++ [k].
Proof.
  induction d as [|[k' v'] d IH]; simpl; [reflexivity|].
  destruct (eqb_spec k' k) as [E | E]; simpl; [reflexivity|].
  rewrite IH. destruct (existsb _ d); reflexivity.
Qed.

Lemma existsb_key_In (d : list (K * V)) (k : K) :
  existsb (fun kv => eqb (fst kv) k) d = true <-> In k (map fst d).
Proof.
  rewrite existsb_exists, in_map_iff. split.
  - intros ([k' v'] & Hin & Heq). simpl in Heq.
    destruct (eqb_spec k' k); [|discriminate]. subst. exists (k, v'). auto.
  - intros ([k' v'] & Heq & Hin). simpl in Heq. subst.
    exists (k, v'). split; [exact Hin|]. simpl.
    destruct (eqb_spec k k); [reflexivity | congruence].
Qed.

Lemma dict_set_keys_nodup (d : list (K * V)) (k : K) (v : V) :
  NoDup (map fst d) -> NoDup (map fst (dict_set eqb d k v)).
Proof.
  intros Hnd. rewrite dict_set_keys.
  destruct (existsb _ d) eqn:E; [exact Hnd|].
  apply NoDup_app; [exact Hnd | repeat constructor; intros [] |].
  intros x Hx [<- | []].
  apply existsb_key_In in Hx. congruence.
Qed.

Lemma dict_set_values (d : list (K * V)) (k : K) (v x : V) :
  In x (map snd (dict_set eqb d k v)) -> x = v \/ In x (map snd d).
Proof.
  induction d as [|[k' v'] d IH]; simpl.
  - intros [<- | []]. left. reflexivity.
  - destruct (eqb_spec k' k); simpl.
    + intros [<- | H]; auto.
    + intros [<- | H]; [auto|]. destruct (IH H); auto.
Qed.

Lemma dict_set_values_nodup (d : list (K * V)) (k : K) (v : V) :
  NoDup (map snd d) -> ~ In v (map snd d) ->
  NoDup (map snd (dict_set eqb d k v)).
Proof.
  induction d as [|[k' v'] d IH]; simpl; intros Hnd Hv.
  - repeat constructor. intros [].
  - inversion Hnd as [|? ? Hv' Hnd']; subst.
    destruct (eqb_spec k' k); simpl.
    + constructor; [tauto | exact Hnd'].
    + constructor; [|apply IH; tauto].
      intros Hin. apply dict_set_values in Hin as [-> | Hin]; tauto.
Qed.

Lemma dict_set_In (d : list (K * V)) (k : K) (v : V) (kv : K * V) :
  In kv (dict_set eqb d k v) -> kv = (k, v) \/ In kv d.
Proof.
  induction d as [|[k' v'] d IH]; simpl.
  - intros [<- | []]. left. reflexivity.
  - destruct (eqb_spec k' k) as [E | E]; simpl.
    + subst k'. intros [<- | H]; auto.
    + intros [<- | H]; [auto|]. destruct (IH H); auto.
Qed.

Lemma dict_set_length (d : list (K * V)) (k : K) (v : V) :
  (1 <= length (dict_set eqb d k v) <= length d + 1)%nat.
Proof.
  induction d as [|[k' v'] d IH]; simpl; [lia|].
  destruct (eqb k' k); simpl; lia.
Qed.

Lemma dict_of_items_from (items : list (K * V)) :
  forall acc,
    NoDup (map fst (acc ++ items)) ->
    fold_left (fun d kv => dict_set eqb d (fst kv) (snd kv)) items acc
    = acc ++ items.
Proof.
  induction items as [|[k v] items IH]; intros acc Hnd; simpl.
  - rewrite app_nil_r. reflexivity.
  - rewrite dict_set_fresh.
    + rewrite IH; rewrite <- app_assoc; [reflexivity | exact Hnd].
    + rewrite map_app in Hnd. simpl in Hnd.
      apply NoDup_remove_2 in Hnd. intros Hin. apply Hnd.
      apply in_or_app. left. exact Hin.
Qed.

(** A comprehension over items with distinct keys is the list of the
    items. *)
Lemma dict_of_items_nodup (items : list (K * V)) :
  NoDup (map fst items) -> dict_of_items eqb items = items.
Proof. intros Hnd. apply (dict_of_items_from items []). exact Hnd. Qed.

Lemma dict_get_Some_In (d : list (K * V)) (k : K) (v : V) :
  dict_get eqb d k = Some v -> In (k, v) d.
Proof.
  induction d as [|[k' v'] d IH]; simpl; [discriminate|].
  destruct (eqb_spec k' k) as [-> | E].
  - intros [= ->]. left. reflexivity.
  - intros H. right. apply IH, H.
Qed.

Lemma dict_get_In (d : list (K * V)) (k : K) (v : V) :
  NoDup (map fst d) -> In (k, v) d -> dict_get eqb d k = Some v.
Proof.
  induction d as [|[k' v'] d IH]; simpl; intros Hnd Hin; [destruct Hin|].
  inversion Hnd as [|? ? Hk Hnd']; subst.
  destruct (eqb_spec k' k) as [-> | E].
  - destruct Hin as [[= ->] | Hin]; [reflexivity|].
    exfalso. apply Hk. apply in_map_iff. exists (k, v). auto.
  - destruct Hin as [[= -> _] | Hin]; [congruence | apply IH; assumption].
Qed.

Lemma dict_get_None (d : list (K * V)) (k : K) :
  dict_get eqb d k = None <-> ~ In k (map fst d).
Proof.
  induction d as [|[k' v'] d IH]; simpl; [tauto|].
  destruct (eqb_spec k' k) as [-> | E].
  - split; [discriminate | tauto].
  - rewrite IH. tauto.
Qed.

End DictFacts.

(** * The tokenizer *)

Section TokenizerFacts.

Import Tokenizer.

Variable word_tokenize : string -> list string.

Lemma insert_by_count_perm (x : string * Z) (l : list (string * Z)) :
  Permutation (insert_by_count x l) (x :: l).
Proof.
  induction l as [|y l IH]; simpl; [reflexivity|].
  destruct (snd x <? snd y); [|reflexivity].
  rewrite IH. apply perm_swap.
Qed.

Lemma most_common_perm (c : list (string * Z)) :
  Permutation (most_common c) c.
Proof.
  induction c as [|x c IH]; simpl; [reflexivity|].
  rewrite insert_by_count_perm, IH. reflexivity.
Qed.

Lemma counter_update_nodup (tokens : list string) :
  forall c, NoDup (map fst c) -> NoDup (map fst (counter_update c tokens)).
Proof.
  unfold counter_update.
  induction tokens as [|t tokens IH]; intros c Hc; simpl; [exact Hc|].
  apply IH. unfold counter_add.
  apply (dict_set_keys_nodup String.eqb String.eqb_spec), Hc.
Qed.

Lemma freqs_after_nodup (self : TextTokenizer) (texts : list string) :
  NoDup (map fst (word_freqs self)) ->
  NoDup (map fst (freqs_after word_tokenize self texts)).
Proof.
  unfold freqs_after. generalize (word_freqs self).
  induction texts as [|text texts IH]; intros c Hc; simpl; [exact Hc|].
  apply IH, counter_update_nodup, Hc.
Qed.

Lemma NoDup_map_fst_filter {A B : Type} (f : A * B -> bool) (l : list (A * B)) :
  NoDup (map fst l) -> NoDup (map fst (filter f l)).
Proof.
  induction l as [|x l IH]; simpl; intros Hnd; [constructor|].
  inversion Hnd as [|? ? Hx Hnd']; subst.
  destruct (f x); simpl; [|apply IH, Hnd'].
  constructor; [|apply IH, Hnd'].
  intros Hin. apply Hx. apply in_map_iff in Hin as (y & Hy & Hin).
  apply filter_In in Hin as [Hin _]. apply in_map_iff. eauto.
Qed.

Lemma firstn_incl {A : Type} (n : nat) (l : list A) (x : A) :
  In x (firstn n l) -> In x l.
Proof.
  revert n. induction l as [|y l IH]; intros n H.
  - rewrite firstn_nil in H. exact H.
  - destruct n; simpl in H; [destruct H|].
    destruct H as [-> | H]; [left; reflexivity | right; eauto].
Qed.

Lemma NoDup_firstn {A : Type} (n : nat) (l : list A) :
  NoDup l -> NoDup (firstn n l).
Proof.
  revert n. induction l as [|x l IH]; intros n Hnd.
  - rewrite firstn_nil. constructor.
  - destruct n; simpl; [constructor|].
    inversion Hnd as [|? ? Hx Hnd']; subst.
    constructor; [|apply IH, Hnd'].
    intros Hin. apply Hx. eapply firstn_incl, Hin.
Qed.

Lemma slice_to_incl {A : Type} (l : list A) (n : Z) (x : A) :
  In x (slice_to l n) -> In x l.
Proof. unfold slice_to. destruct (n <? 0); apply firstn_incl. Qed.

Lemma slice_to_nodup {A : Type} (l : list A) (n : Z) :
  NoDup l -> NoDup (slice_to l n).
Proof. unfold slice_to. destruct (n <? 0); apply NoDup_firstn. Qed.

Lemma slice_to_length {A : Type} (l : list A) (n : Z) :
  0 <= n -> Z.of_nat (length (slice_to l n)) <= n.
Proof.
  intros Hn. unfold slice_to.
  replace (n <? 0) with false by (symmetry; apply Z.ltb_ge; lia).
  pose proof (firstn_le_length (Z.to_nat n) l).
  rewrite length_firstn. lia.
Qed.

Lemma slice_to_all {A : Type} (l : list A) (n : Z) :
  Z.of_nat (length l) <= n -> slice_to l n = l.
Proof.
  intros Hn. unfold slice_to.
  replace (n <? 0) with false by (symmetry; apply Z.ltb_ge; lia).
  apply firstn_all2. lia.
Qed.

Lemma enumerate_snd {A : Type} (l : list A) :
  forall start, map snd (enumerate l start) = l.
Proof. induction l as [|x l IH]; intros start; simpl; congruence. Qed.

Lemma enumerate_fst_bounds {A : Type} (l : list A) :
  forall start i,
    In i (map fst (enumerate l start)) ->
    start <= i < start + Z.of_nat (length l).
Proof.
  induction l as [|x l IH]; intros start i H; simpl in *; [destruct H|].
  destruct H as [<- | H]; [lia|]. apply IH in H. lia.
Qed.

Lemma enumerate_fst_nodup {A : Type} (l : list A) :
  forall start, NoDup (map fst (enumerate l start)).
Proof.
  induction l as [|x l IH]; intros start; simpl; constructor; [|apply IH].
  intros H. apply enumerate_fst_bounds in H. lia.
Qed.

Lemma filtered_words_nodup (self : TextTokenizer) (freqs : list (string * Z)) :
  NoDup (map fst freqs) -> NoDup (filtered_words self freqs).
Proof.
  intros Hnd. unfold filtered_words. apply NoDup_map_fst_filter.
  eapply Permutation_NoDup; [|exact Hnd].
  apply Permutation_map. symmetry. apply most_common_perm.
Qed.

Lemma vocab_words_nodup (self : TextTokenizer) (texts : list string) :
  NoDup (map fst (word_freqs self)) -> NoDup (vocab_words word_tokenize self texts).
Proof.
  intros Hnd. apply slice_to_nodup, filtered_words_nodup, freqs_after_nodup, Hnd.
Qed.

Lemma numbered_keys (words : list string) : map fst (numbered words) = words.
Proof.
  unfold numbered. rewrite map_map. simpl.
  rewrite <- (enumerate_snd words 1) at 2. reflexivity.
Qed.

Lemma numbered_length (words : list string) :
  length (numbered words) = length words.
Proof.
  rewrite <- (length_map fst), numbered_keys. reflexivity.
Qed.

Lemma numbered_values (words : list string) :
  map snd (numbered words) = map fst (enumerate words 1).
Proof. unfold numbered. rewrite map_map. reflexivity. Qed.

(** What [build_vocab] leaves: the vocabulary is the numbered words with
    ['<UNK>'] set to 0, its keys and its indices are distinct, and the
    reverse vocabulary is the vocabulary with every item swapped. *)
Lemma build_vocab_shape (self : TextTokenizer) (texts : list string) :
  NoDup (map fst (word_freqs self)) ->
  vocab (build_vocab word_tokenize self texts)
  = dict_set String.eqb (numbered (vocab_words word_tokenize self texts)) "<UNK>" 0 /\
  rev_vocab (build_vocab word_tokenize self texts)
  = map (fun wi => (snd wi, fst wi))
        (vocab (build_vocab word_tokenize self texts)) /\
  NoDup (map fst (vocab (build_vocab word_tokenize self texts))) /\
  NoDup (map snd (vocab (build_vocab word_tokenize self texts))).
Proof.
  intros Hnd. pose proof (vocab_words_nodup self texts Hnd) as Hw.
  unfold build_vocab. cbn [vocab rev_vocab].
  fold (freqs_after word_tokenize self texts). fold (vocab_words word_tokenize self texts).
  fold (numbered (vocab_words word_tokenize self texts)).
  rewrite (dict_of_items_nodup String.eqb String.eqb_spec)
    by (rewrite numbered_keys; exact Hw).
  set (v := dict_set String.eqb (numbered (vocab_words word_tokenize self texts)) "<UNK>" 0).
  assert (Hkeys : NoDup (map fst v)).
  { apply (dict_set_keys_nodup String.eqb String.eqb_spec).
    rewrite numbered_keys. exact Hw. }
  assert (Hvals : NoDup (map snd v)).
  { apply (dict_set_values_nodup String.eqb String.eqb_spec).
    - rewrite numbered_values. apply enumerate_fst_nodup.
    - rewrite numbered_values. intros H.
      apply enumerate_fst_bounds in H. lia. }
  split; [reflexivity|]. split; [|split; assumption].
  apply (dict_of_items_nodup Z.eqb Z.eqb_spec).
  rewrite map_map. simpl. exact Hvals.
Qed.

End TokenizerFacts.

Section TokenizerTheorems.

Import Tokenizer.

Variable word_tokenize : string -> list string.

Lemma vocab_item (self : TextTokenizer) (texts : list string)
    (w : string) (idx : Z) :
  NoDup (map fst (word_freqs self)) ->
  In (w, idx) (vocab (build_vocab word_tokenize self texts)) ->
  (w = "<UNK>" /\ idx = 0) \/
  (1 <= idx <= Z.of_nat (length (vocab_words word_tokenize self texts)) /\
   In w (vocab_words word_tokenize self texts)).
Proof.
  intros Hnd Hin.
  destruct (build_vocab_shape word_tokenize self texts Hnd) as (Hv & _).
  rewrite Hv in Hin.
  apply (dict_set_In String.eqb String.eqb_spec) in Hin as [[= -> ->] | Hin];
    [left; split; reflexivity | right].
  split.
  - assert (H : In idx (map snd (numbered (vocab_words word_tokenize self texts))))
      by (apply in_map_iff; exists (w, idx); auto).
    rewrite numbered_values in H. apply enumerate_fst_bounds in H. lia.
  - rewrite <- (numbered_keys (vocab_words word_tokenize self texts)).
    apply in_map_iff. exists (w, idx). auto.
Qed.

Lemma rev_vocab_get (self : TextTokenizer) (texts : list string)
    (w : string) (idx : Z) :
  NoDup (map fst (word_freqs self)) ->
  dict_get String.eqb (vocab (build_vocab word_tokenize self texts)) w
  = Some idx ->
  dict_get Z.eqb (rev_vocab (build_vocab word_tokenize self texts)) idx
  = Some w.
Proof.
  intros Hnd Hget.
  destruct (build_vocab_shape word_tokenize self texts Hnd)
    as (_ & Hrev & _ & Hvals).
  rewrite Hrev. apply (dict_get_In Z.eqb Z.eqb_spec).
  - rewrite map_map. exact Hvals.
  - apply (dict_get_Some_In String.eqb String.eqb_spec) in Hget.
    apply in_map_iff. exists (w, idx). auto.
Qed.

Lemma unk_get (self : TextTokenizer) (texts : list string) :
  NoDup (map fst (word_freqs self)) ->
  dict_get String.eqb (vocab (build_vocab word_tokenize self texts)) "<UNK>"
  = Some 0.
Proof.
  intros Hnd.
  destruct (build_vocab_shape word_tokenize self texts Hnd) as (Hv & _).
  rewrite Hv. apply (dict_get_set_same String.eqb String.eqb_spec).
Qed.

(** X17: After [build_vocab], decoding the token ids of a text gives its tokens
    joined by single spaces, with every token outside the vocabulary
    replaced by ['<UNK>']; a text all of whose tokens are in the vocabulary
    is given back token for token. *)
Theorem decode_tokenize (self : TextTokenizer) (texts : list string)
    (text : string) :
  NoDup (map fst (word_freqs self)) ->
  decode (build_vocab word_tokenize self texts)
         (tokenize word_tokenize (build_vocab word_tokenize self texts) text)
  = PyStr.join " "
      (map (fun token =>
              if in_vocab (build_vocab word_tokenize self texts) token
              then token else "<UNK>")
           (word_tokenize text)) /\
  (forallb (in_vocab (build_vocab word_tokenize self texts))
           (word_tokenize text) = true ->
   decode (build_vocab word_tokenize self texts)
          (tokenize word_tokenize (build_vocab word_tokenize self texts) text)
   = PyStr.join " " (word_tokenize text)).
Proof.
  intros Hnd.
  assert (Hgen :
    decode (build_vocab word_tokenize self texts)
           (tokenize word_tokenize (build_vocab word_tokenize self texts) text)
    = PyStr.join " "
        (map (fun token =>
                if in_vocab (build_vocab word_tokenize self texts) token
                then token else "<UNK>")
             (word_tokenize text))).
  { unfold decode, tokenize. rewrite map_map. f_equal.
    apply map_ext. intros token. unfold in_vocab.
    destruct (dict_get String.eqb _ token) as [idx|] eqn:Hget.
    - rewrite (rev_vocab_get self texts token idx Hnd Hget). reflexivity.
    - rewrite (rev_vocab_get self texts "<UNK>" 0 Hnd (unk_get self texts Hnd)).
      reflexivity. }
  split; [exact Hgen|].
  intros Hall. rewrite Hgen. f_equal.
  rewrite forallb_forall in Hall.
  rewrite <- (map_id (word_tokenize text)) at 2.
  apply map_ext_in. intros token Hin. rewrite (Hall token Hin). reflexivity.
Qed.

(** X18: [build_vocab] does not reset the frequencies: building on some texts
    and then on others leaves the tokenizer that one call on all the texts
    leaves. *)
Theorem build_vocab_accumulates (self : TextTokenizer)
    (texts more_texts : list string) :
  build_vocab word_tokenize (build_vocab word_tokenize self texts) more_texts
  = build_vocab word_tokenize self (texts ++ more_texts).
Proof.
  unfold build_vocab. cbn [min_freq max_vocab stop_words word_freqs].
  rewrite fold_left_app. reflexivity.
Qed.

(** X19: With a non-negative vocabulary limit, every token id is between 0 and
    the limit, and the vocabulary holds between 1 and [max_vocab + 1]
    words. *)
Theorem token_ids_bounded (self : TextTokenizer) (texts : list string)
    (text : string) :
  NoDup (map fst (word_freqs self)) ->
  0 <= max_vocab self ->
  Forall (fun idx => 0 <= idx <= max_vocab self)
         (tokenize word_tokenize (build_vocab word_tokenize self texts) text) /\
  1 <= get_vocab_size (build_vocab word_tokenize self texts)
    <= max_vocab self + 1.
Proof.
  intros Hnd Hmax.
  assert (Hlen : Z.of_nat (length (vocab_words word_tokenize self texts))
                 <= max_vocab self) by (apply slice_to_length, Hmax).
  split.
  - unfold tokenize. apply Forall_forall. intros idx Hin.
    apply in_map_iff in Hin as (token & <- & _).
    destruct (dict_get String.eqb _ token) as [idx|] eqn:Hget; [|lia].
    apply (dict_get_Some_In String.eqb String.eqb_spec) in Hget.
    destruct (vocab_item self texts token idx Hnd Hget) as [[_ ->] | [H _]]; lia.
  - unfold get_vocab_size.
    destruct (build_vocab_shape word_tokenize self texts Hnd) as (-> & _).
    pose proof (dict_set_length String.eqb
                  (numbered (vocab_words word_tokenize self texts)) "<UNK>" 0) as H.
    rewrite numbered_length in H. lia.
Qed.

Lemma word_freqs_after (self : TextTokenizer) (texts : list string) :
  word_freqs (build_vocab word_tokenize self texts)
  = freqs_after word_tokenize self texts.
Proof. reflexivity. Qed.

Lemma filtered_words_In (self : TextTokenizer) (freqs : list (string * Z))
    (w : string) :
  NoDup (map fst freqs) ->
  In w (filtered_words self freqs) <->
  exists freq,
    dict_get String.eqb freqs w = Some freq /\
    min_freq self <= freq /\ is_stop_word self w = false.
Proof.
  intros Hnd. unfold filtered_words. rewrite in_map_iff. split.
  - intros ([w' freq] & <- & Hin). apply filter_In in Hin as [Hin Hcond].
    simpl in *. apply andb_prop in Hcond as [Hf Hs].
    exists freq. split; [|split].
    + apply (dict_get_In String.eqb String.eqb_spec); [exact Hnd|].
      eapply Permutation_in; [apply most_common_perm | exact Hin].
    + apply Z.leb_le, Hf.
    + destruct (is_stop_word self w'); [discriminate | reflexivity].
  - intros (freq & Hget & Hf & Hs). exists (w, freq). split; [reflexivity|].
    apply filter_In. split.
    + eapply Permutation_in; [symmetry; apply most_common_perm|].
      apply (dict_get_Some_In String.eqb String.eqb_spec), Hget.
    + simpl. rewrite Hs. apply Z.leb_le in Hf. rewrite Hf. reflexivity.
Qed.

(** X20: Every word of the vocabulary other than the ['<UNK>'] entry of index 0
    has an index from 1 on, has been seen at least [min_freq] times over
    all the calls of [build_vocab], and is not a stop word. *)
Theorem vocab_sound (self : TextTokenizer) (texts : list string)
    (w : string) (idx : Z) :
  NoDup (map fst (word_freqs self)) ->
  In (w, idx) (vocab (build_vocab word_tokenize self texts)) ->
  (w = "<UNK>" /\ idx = 0) \/
  (1 <= idx /\
   exists freq,
     dict_get String.eqb (word_freqs (build_vocab word_tokenize self texts)) w
     = Some freq /\
     min_freq self <= freq /\ is_stop_word self w = false).
Proof.
  intros Hnd Hin.
  destruct (vocab_item self texts w idx Hnd Hin) as [H | [Hidx Hw]];
    [left; exact H | right].
  split; [lia|]. rewrite word_freqs_after.
  apply slice_to_incl in Hw.
  apply filtered_words_In in Hw; [exact Hw|].
  apply freqs_after_nodup, Hnd.
Qed.

(** X21: When the vocabulary limit is not reached, every word seen at least
    [min_freq] times that is not a stop word is in the vocabulary. *)
Theorem vocab_complete (self : TextTokenizer) (texts : list string)
    (w : string) (freq : Z) :
  NoDup (map fst (word_freqs self)) ->
  Z.of_nat (length (filtered_words self (freqs_after word_tokenize self texts)))
    <= max_vocab self ->
  dict_get String.eqb (word_freqs (build_vocab word_tokenize self texts)) w
  = Some freq ->
  min_freq self <= freq ->
  is_stop_word self w = false ->
  in_vocab (build_vocab word_tokenize self texts) w = true.
Proof.
  intros Hnd Hroom Hget Hf Hs. rewrite word_freqs_after in Hget.
  assert (Hw : In w (vocab_words word_tokenize self texts)).
  { unfold vocab_words. rewrite slice_to_all by exact Hroom.
    apply filtered_words_In; [apply freqs_after_nodup, Hnd | eauto]. }
  unfold in_vocab.
  destruct (dict_get String.eqb
              (vocab (build_vocab word_tokenize self texts)) w) eqn:Hnone;
    [reflexivity|].
  apply (dict_get_None String.eqb String.eqb_spec) in Hnone.
  exfalso. apply Hnone.
  destruct (build_vocab_shape word_tokenize self texts Hnd) as (-> & _).
  rewrite (dict_set_keys String.eqb String.eqb_spec).
  destruct (existsb _ _); [|apply in_or_app; left];
    rewrite numbered_keys; exact Hw.
Qed.

End TokenizerTheorems.

Section TokenizerOrder.

Import Tokenizer.

Variable word_tokenize : string -> list string.

Lemma insert_by_count_sorted (x : string * Z) (l : list (string * Z)) :
  StronglySorted by_count l -> StronglySorted by_count (insert_by_count x l).
Proof.
  induction 1 as [|y l Hsorted IH Hy]; simpl.
  - repeat constructor.
  - destruct (snd x <? snd y) eqn:E.
    + apply Z.ltb_lt in E. constructor; [exact IH|].
      eapply Permutation_Forall;
        [symmetry; apply insert_by_count_perm|].
      constructor; [unfold by_count; lia | exact Hy].
    + apply Z.ltb_ge in E. constructor; [constructor; assumption|].
      constructor; [exact E|].
      eapply Forall_impl; [|exact Hy]. unfold by_count. intros z Hz. lia.
Qed.

Lemma most_common_sorted (c : list (string * Z)) :
  StronglySorted by_count (most_common c).
Proof.
  induction c as [|x c IH]; simpl; [constructor|].
  apply insert_by_count_sorted, IH.
Qed.

Lemma sorted_filter (f : string * Z -> bool) (l : list (string * Z)) :
  StronglySorted by_count l -> StronglySorted by_count (filter f l).
Proof.
  induction 1 as [|y l Hsorted IH Hy]; simpl; [constructor|].
  destruct (f y); [|exact IH]. constructor; [exact IH|].
  apply Forall_forall. intros z Hz. apply filter_In in Hz as [Hz _].
  rewrite Forall_forall in Hy. apply Hy, Hz.
Qed.

Lemma sorted_firstn (n : nat) (l : list (string * Z)) :
  StronglySorted by_count l -> StronglySorted by_count (firstn n l).
Proof.
  intros H. revert n. induction H as [|y l Hsorted IH Hy]; intros n.
  - rewrite firstn_nil. constructor.
  - destruct n; simpl; constructor; [apply IH|].
    apply Forall_forall. intros z Hz. apply firstn_incl in Hz.
    rewrite Forall_forall in Hy. apply Hy, Hz.
Qed.

Lemma sorted_nth_error (l : list (string * Z)) :
  StronglySorted by_count l ->
  forall p q a b,
    (p < q)%nat -> nth_error l p = Some a -> nth_error l q = Some b ->
    by_count a b.
Proof.
  induction 1 as [|y l Hsorted IH Hy]; intros p q a b Hpq Hp Hq.
  - destruct p; discriminate.
  - destruct q as [|q]; [lia|]. simpl in Hq.
    destruct p as [|p]; simpl in Hp.
    + injection Hp as <-. rewrite Forall_forall in Hy.
      apply Hy. eapply nth_error_In, Hq.
    + apply (IH p q); [lia | assumption | assumption].
Qed.

Lemma slice_to_map {A B : Type} (f : A -> B) (l : list A) (n : Z) :
  slice_to (map f l) n = map f (slice_to l n).
Proof.
  unfold slice_to. rewrite length_map.
  destruct (n <? 0); apply firstn_map.
Qed.

Lemma enumerate_nth_error {A : Type} (l : list A) :
  forall start i x,
    In (i, x) (enumerate l start) ->
    start <= i /\ nth_error l (Z.to_nat (i - start)) = Some x.
Proof.
  induction l as [|y l IH]; intros start i x H; simpl in H; [destruct H|].
  destruct H as [[= <- <-] | H].
  - rewrite Z.sub_diag. split; [lia | reflexivity].
  - apply IH in H as [Hle Hn]. split; [lia|].
    replace (Z.to_nat (i - start)) with (S (Z.to_nat (i - (start + 1))))
      by lia.
    exact Hn.
Qed.

(** X22: The indices follow the frequencies: of two vocabulary words with
    indices from 1 on, the one with the smaller index has been seen at
    least as often as the other. *)
Theorem vocab_frequency_order (self : TextTokenizer) (texts : list string)
    (w1 w2 : string) (i1 i2 f1 f2 : Z) :
  NoDup (map fst (word_freqs self)) ->
  In (w1, i1) (vocab (build_vocab word_tokenize self texts)) ->
  In (w2, i2) (vocab (build_vocab word_tokenize self texts)) ->
  1 <= i1 < i2 ->
  dict_get String.eqb (word_freqs (build_vocab word_tokenize self texts)) w1
  = Some f1 ->
  dict_get String.eqb (word_freqs (build_vocab word_tokenize self texts)) w2
  = Some f2 ->
  f2 <= f1.
Proof.
  intros Hnd H1 H2 Hlt Hf1 Hf2.
  change (word_freqs (build_vocab word_tokenize self texts))
    with (freqs_after word_tokenize self texts) in Hf1, Hf2.
  pose proof (freqs_after_nodup word_tokenize self texts Hnd) as Hc.
  destruct (build_vocab_shape word_tokenize self texts Hnd) as (Hv & _).
  rewrite Hv in H1, H2.
  apply (dict_set_In String.eqb String.eqb_spec) in H1 as [[= _ ->] | H1];
    [lia|].
  apply (dict_set_In String.eqb String.eqb_spec) in H2 as [[= _ ->] | H2];
    [lia|].
  unfold numbered in H1, H2.
  apply in_map_iff in H1 as ([j1 x1] & [= <- <-] & H1).
  apply in_map_iff in H2 as ([j2 x2] & [= <- <-] & H2).
  apply enumerate_nth_error in H1 as [_ H1].
  apply enumerate_nth_error in H2 as [_ H2].
  unfold vocab_words, filtered_words in H1, H2.
  rewrite slice_to_map in H1, H2.
  set (kept := slice_to (filter _ (most_common _)) (max_vocab self)) in *.
  assert (Hsorted : StronglySorted by_count kept).
  { unfold kept, slice_to.
    destruct (max_vocab self <? 0);
      apply sorted_firstn, sorted_filter, most_common_sorted. }
  assert (Hkept : forall x, In x kept ->
                            In x (freqs_after word_tokenize self texts)).
  { intros x Hx. unfold kept in Hx. apply slice_to_incl in Hx.
    apply filter_In in Hx as [Hx _].
    eapply Permutation_in; [apply most_common_perm | exact Hx]. }
  rewrite nth_error_map in H1, H2.
  destruct (nth_error kept (Z.to_nat (j1 - 1))) as [[w1 g1]|] eqn:E1;
    [|discriminate].
  destruct (nth_error kept (Z.to_nat (j2 - 1))) as [[w2 g2]|] eqn:E2;
    [|discriminate].
  simpl in H1, H2. injection H1 as <-. injection H2 as <-.
  assert (Hg1 : dict_get String.eqb (freqs_after word_tokenize self texts) w1
                = Some g1).
  { apply (dict_get_In String.eqb String.eqb_spec); [exact Hc|].
    eapply Hkept, nth_error_In, E1. }
  assert (Hg2 : dict_get String.eqb (freqs_after word_tokenize self texts) w2
                = Some g2).
  { apply (dict_get_In String.eqb String.eqb_spec); [exact Hc|].
    eapply Hkept, nth_error_In, E2. }
  assert (g1 = f1) by congruence. assert (g2 = f2) by congruence. subst.
  apply (sorted_nth_error kept Hsorted (Z.to_nat (j1 - 1)) (Z.to_nat (j2 - 1))
           (w1, f1) (w2, f2)); [lia | assumption | assumption].
Qed.

End TokenizerOrder.

(** * The JSON scraper *)

Section JsonFacts.

Import JsonScraper.

(** Induction on a document, with the hypothesis for every element of a
    list and for every value of a dict. *)
Lemma json_induction (P : json -> Prop) :
  P JNull ->
  (forall b, P (JBool b)) ->
  (forall q, P (JNumber q)) ->
  (forall s, P (JString s)) ->
  (forall items, Forall P items -> P (JArray items)) ->
  (forall items, Forall (fun kv => P (snd kv)) items -> P (JObject items)) ->
  forall obj, P obj.
Proof.
  intros Hnull Hbool Hnum Hstr Harr Hobj.
  fix IH 1. intros [| b | q | s | items | items].
  - exact Hnull.
  - apply Hbool.
  - apply Hnum.
  - apply Hstr.
  - apply Harr. induction items as [|item items IHitems]; constructor.
    + apply IH.
    + exact IHitems.
  - apply Hobj. induction items as [|[key value] items IHitems]; constructor.
    + apply IH.
    + exact IHitems.
Qed.

Lemma extract_object (items : list (string * json))
    (fields : option (list string)) :
  extract_text (JObject items) fields = flat_map (item_text fields) items.
Proof.
  induction items as [|[key value] items IH]; [reflexivity|].
  simpl flat_map. rewrite <- IH. unfold item_text. simpl.
  destruct (selected fields key); [|reflexivity].
  destruct value; reflexivity.
Qed.

Lemma extract_array (items : list json) (fields : option (list string)) :
  extract_text (JArray items) fields
  = flat_map (fun item => extract_text item fields) items.
Proof.
  induction items as [|item items IH]; [reflexivity|].
  simpl flat_map. rewrite <- IH. reflexivity.
Qed.

(** X23: An empty list of field names selects nothing: it does not stand for
    "all fields" as [None] does. *)
Theorem extract_text_no_fields (obj : json) :
  extract_text obj (Some []) = [].
Proof.
  induction obj as [| b | q | s | items IH | items IH] using json_induction;
    try reflexivity.
  - rewrite extract_array.
    induction IH as [|item items Hitem _ IHitems]; [reflexivity|].
    simpl. rewrite Hitem, IHitems. reflexivity.
  - rewrite extract_object.
    induction items as [|[key value] items IHitems]; reflexivity || auto.
    simpl. inversion IH; subst. rewrite IHitems by assumption.
    reflexivity.
Qed.

(** X24: Field names only ever remove text: whatever is extracted under one
    selection is extracted under any selection that keeps at least the same
    keys, in particular with no field names given. *)
Theorem extract_text_monotone (obj : json)
    (fields more_fields : option (list string)) (s : string) :
  (forall key, selected fields key = true -> selected more_fields key = true) ->
  In s (extract_text obj fields) ->
  In s (extract_text obj more_fields).
Proof.
  intros Hsel. revert s.
  induction obj as [| b | q | s0 | items IH | items IH] using json_induction;
    intros s Hin; try (destruct Hin; fail).
  - rewrite extract_array in *. apply in_flat_map in Hin as (item & Hitem & Hin).
    apply in_flat_map. exists item. split; [exact Hitem|].
    rewrite Forall_forall in IH. apply IH; assumption.
  - rewrite extract_object in *.
    apply in_flat_map in Hin as ([key value] & Hitem & Hin).
    apply in_flat_map. exists (key, value). split; [exact Hitem|].
    rewrite Forall_forall in IH. specialize (IH _ Hitem). simpl in IH.
    unfold item_text in *. simpl in *.
    destruct (selected fields key) eqn:E; [|destruct Hin].
    rewrite (Hsel key E).
    destruct value; try exact Hin; apply IH, Hin.
Qed.

(** X25: On a dict whose values are all strings, the extracted text is the
    values of the selected keys, in document order. *)
Theorem extract_text_flat_object (items : list (string * string))
    (fields : option (list string)) :
  extract_text (JObject (map (fun kv => (fst kv, JString (snd kv))) items))
               fields
  = map snd (filter (fun kv => selected fields (fst kv)) items).
Proof.
  rewrite extract_object.
  induction items as [|[key value] items IH]; [reflexivity|].
  simpl. rewrite IH. unfold item_text. simpl.
  destruct (selected fields key); reflexivity.
Qed.

(** X26: Only the string values of dicts are text: a string that is an element
    of a list is dropped, also when the list is the value of a selected
    key, and a document that is a bare string gives nothing. *)
Theorem extract_text_skips_list_strings (strings : list string)
    (key s : string) (fields : option (list string)) :
  extract_text (JArray (map JString strings)) fields = [] /\
  extract_text (JObject [(key, JArray (map JString strings))]) fields = [] /\
  extract_text (JString s) fields = [].
Proof.
  assert (H : extract_text (JArray (map JString strings)) fields = []).
  { rewrite extract_array.
    induction strings as [|x strings IH]; [reflexivity | exact IH]. }
  split; [exact H|]. split; [|reflexivity].
  rewrite extract_object. cbn [flat_map]. unfold item_text. cbn [fst snd].
  destruct (selected fields key); [|reflexivity].
  rewrite H. reflexivity.
Qed.

End JsonFacts.

(** * The vectorizer *)

Section VectorizerFacts.

Import Vectorizer.

Variable tfidf_transform : list string -> result (list (list Q)).
Variable argsort : list Q -> list Z.
Variable feature_names : option (list string).

Lemma slice_from_last_length {A : Type} (l : list A) (n : Z) :
  1 <= n -> Z.of_nat (length (slice_from l (- n))) <= n.
Proof.
  intros Hn. unfold slice_from.
  replace (- n <? 0) with true by (symmetry; apply Z.ltb_lt; lia).
  rewrite length_skipn. lia.
Qed.

Lemma slice_from_all {A : Type} (l : list A) (n : Z) :
  n = 0 \/ Z.of_nat (length l) <= n -> slice_from l (- n) = l.
Proof.
  intros Hn. unfold slice_from.
  destruct (- n <? 0) eqn:E.
  - apply Z.ltb_lt in E.
    replace (Z.to_nat (Z.max (Z.of_nat (length l) + - n) 0)) with 0%nat by lia.
    reflexivity.
  - apply Z.ltb_ge in E.
    replace (Z.to_nat (Z.min (- n) (Z.of_nat (length l)))) with 0%nat by lia.
    reflexivity.
Qed.

(** The comprehension keeps at most one pair for each index, each with a
    positive score read from the vector. *)
Lemma top_terms_loop (vector : list Q) (indices : list Z) :
  forall acc terms w,
    for_each (top_term_step feature_names vector) indices acc = (Ok terms, w) ->
    exists kept,
      terms = acc ++ kept /\
      (length kept <= length indices)%nat /\
      Forall (fun term => (0 < snd term)%Q /\ In (snd term) vector) kept.
Proof.
  induction indices as [|i indices IH]; intros acc terms w H.
  - injection H as <- _. exists []. rewrite app_nil_r.
    split; [reflexivity|]. split; [simpl; lia | constructor].
  - cbn [for_each] in H.
    destruct (top_term_step feature_names vector acc i) as [[acc'|e] w1] eqn:Hstep;
      [|discriminate].
    rewrite bind_ok in H.
    destruct (for_each _ indices acc') as [[r|e] w2] eqn:Hrest; [|discriminate].
    simpl in H. injection H as <- _.
    destruct (IH _ _ _ Hrest) as (kept & -> & Hlen & Hall).
    unfold top_term_step, lift in Hstep.
    destruct (py_index vector i) as [score|e] eqn:Hscore; [|discriminate].
    rewrite bind_ok in Hstep. cbn [fst snd app] in Hstep.
    destruct (positive score) eqn:Hpos.
    + destruct (feature_name feature_names i) as [name|e]; [|discriminate].
      simpl in Hstep. injection Hstep as <- _.
      exists ((name, score) :: kept). rewrite <- app_assoc.
      split; [reflexivity|]. split; [simpl; lia|].
      constructor; [|exact Hall]. simpl. split.
      * unfold positive in Hpos. apply negb_true_iff in Hpos.
        apply Qnot_le_lt. intros Hle. apply Qle_bool_iff in Hle. congruence.
      * eapply py_index_In, Hscore.
    + simpl in Hstep. injection Hstep as <- _.
      exists kept. split; [reflexivity|]. split; [simpl; lia | exact Hall].
Qed.

(** X27: When [get_top_terms] returns for [n >= 1], it returns at most [n]
    terms, each with a positive score that is an entry of the text's
    vector. *)
Theorem get_top_terms_bounded (text : string) (n : Z)
    (terms : list (string * Q)) (w : list event) :
  1 <= n ->
  get_top_terms tfidf_transform argsort feature_names text n = (Ok terms, w) ->
  Z.of_nat (length terms) <= n /\
  exists vector rest,
    tfidf_transform [text] = Ok (vector :: rest) /\
    Forall (fun term => (0 < snd term)%Q /\ In (snd term) vector) terms.
Proof.
  intros Hn. unfold get_top_terms, transform, lift.
  destruct (tfidf_transform [text]) as [rows|e]; [|discriminate].
  rewrite bind_ok. cbn [fst snd app].
  destruct rows as [|vector rest]; [discriminate|].
  change (py_index (vector :: rest) 0) with (Ok vector).
  rewrite bind_ok. cbn [fst snd app].
  intros H.
  destruct (for_each _ _ _) as [[r|e] w'] eqn:Hloop; [|discriminate].
  injection H as <- _.
  destruct (top_terms_loop _ _ _ _ _ Hloop) as (kept & -> & Hlen & Hall).
  rewrite length_rev in Hlen.
  pose proof (slice_from_last_length (argsort vector) n Hn).
  split; [simpl; lia|]. exists vector, rest. split; [reflexivity | exact Hall].
Qed.

(** X28: Asking for the top 0 terms does not give none: [[-0:]] is the whole
    array, so the answer is the one for any [n] that covers all the
    features. *)
Theorem get_top_terms_zero (text : string) (n : Z) (vector : list Q)
    (rest : list (list Q)) :
  tfidf_transform [text] = Ok (vector :: rest) ->
  Z.of_nat (length (argsort vector)) <= n ->
  get_top_terms tfidf_transform argsort feature_names text 0
  = get_top_terms tfidf_transform argsort feature_names text n.
Proof.
  intros Hrows Hn. unfold get_top_terms, transform, lift.
  rewrite Hrows, !bind_ok. cbn [fst snd app].
  change (py_index (vector :: rest) 0) with (Ok vector).
  rewrite !bind_ok. cbn [fst snd app].
  rewrite (slice_from_all (argsort vector) 0) by (left; reflexivity).
  rewrite (slice_from_all (argsort vector) n) by (right; exact Hn).
  reflexivity.
Qed.

End VectorizerFacts.

(** * The tokenizer, the scraper and the vectorizer on particular inputs *)

Example build_vocab_example :
  Tokenizer.vocab
    (Tokenizer.build_vocab Tokenizer.space_tokenize
       (Tokenizer.init 2 10000 (Some ["fox"]))
       ["the quick brown fox jumps over the lazy dog"; "the fox";
        "a <UNK> <UNK> dog"])
  = [("the", 1); ("dog", 2); ("<UNK>", 0)].
Proof. reflexivity. Qed.

Lemma decode_tokenize_witness :
  NoDup (map fst (Tokenizer.word_freqs (Tokenizer.init 1 10000 None))) /\
  Tokenizer.decode
    (Tokenizer.build_vocab Tokenizer.space_tokenize
       (Tokenizer.init 1 10000 None) ["the quick fox"; "the fox"])
    (Tokenizer.tokenize Tokenizer.space_tokenize
       (Tokenizer.build_vocab Tokenizer.space_tokenize
          (Tokenizer.init 1 10000 None) ["the quick fox"; "the fox"])
       "the lazy fox")
  = "the <UNK> fox".
Proof.
  assert (H : NoDup (map fst (Tokenizer.word_freqs (Tokenizer.init 1 10000 None))))
    by constructor.
  split; [exact H|].
  destruct (decode_tokenize Tokenizer.space_tokenize
              (Tokenizer.init 1 10000 None) ["the quick fox"; "the fox"]
              "the lazy fox" H) as [Hgen _].
  rewrite Hgen. reflexivity.
Defined.

Lemma token_ids_bounded_witness :
  NoDup (map fst (Tokenizer.word_freqs (Tokenizer.init 1 2 None))) /\
  0 <= Tokenizer.max_vocab (Tokenizer.init 1 2 None) /\
  Forall (fun idx => 0 <= idx <= 2)
         (Tokenizer.tokenize Tokenizer.space_tokenize
            (Tokenizer.build_vocab Tokenizer.space_tokenize
               (Tokenizer.init 1 2 None) ["the quick fox"; "the fox"])
            "the lazy quick fox") /\
  1 <= Tokenizer.get_vocab_size
         (Tokenizer.build_vocab Tokenizer.space_tokenize
            (Tokenizer.init 1 2 None) ["the quick fox"; "the fox"])
    <= 2 + 1.
Proof.
  assert (H : NoDup (map fst (Tokenizer.word_freqs (Tokenizer.init 1 2 None))))
    by constructor.
  assert (Hmax : 0 <= Tokenizer.max_vocab (Tokenizer.init 1 2 None))
    by (simpl; lia).
  split; [exact H|]. split; [exact Hmax|].
  apply (token_ids_bounded Tokenizer.space_tokenize (Tokenizer.init 1 2 None)
           ["the quick fox"; "the fox"] "the lazy quick fox" H Hmax).
Defined.

Lemma vocab_sound_witness :
  In ("fox", 2)
     (Tokenizer.vocab
        (Tokenizer.build_vocab Tokenizer.space_tokenize
           (Tokenizer.init 2 10000 None) ["the quick fox"; "the fox"])) /\
  (("fox" = "<UNK>" /\ 2 = 0) \/
   (1 <= 2 /\
    exists freq,
      dict_get String.eqb
        (Tokenizer.word_freqs
           (Tokenizer.build_vocab Tokenizer.space_tokenize
              (Tokenizer.init 2 10000 None) ["the quick fox"; "the fox"]))
        "fox" = Some freq /\
      Tokenizer.min_freq (Tokenizer.init 2 10000 None) <= freq /\
      Tokenizer.is_stop_word (Tokenizer.init 2 10000 None) "fox" = false)).
Proof.
  assert (Hin : In ("fox", 2)
     (Tokenizer.vocab
        (Tokenizer.build_vocab Tokenizer.space_tokenize
           (Tokenizer.init 2 10000 None) ["the quick fox"; "the fox"])))
    by (vm_compute; right; left; reflexivity).
  split; [exact Hin|].
  apply (vocab_sound Tokenizer.space_tokenize (Tokenizer.init 2 10000 None)
           ["the quick fox"; "the fox"] "fox" 2); [constructor | exact Hin].
Defined.

Lemma vocab_complete_witness :
  dict_get String.eqb
    (Tokenizer.word_freqs
       (Tokenizer.build_vocab Tokenizer.space_tokenize
          (Tokenizer.init 2 10000 None) ["the quick fox"; "the fox"]))
    "fox" = Some 2 /\
  in_vocab
    (Tokenizer.build_vocab Tokenizer.space_tokenize
       (Tokenizer.init 2 10000 None) ["the quick fox"; "the fox"])
    "fox" = true.
Proof.
  split; [reflexivity|].
  apply (vocab_complete Tokenizer.space_tokenize (Tokenizer.init 2 10000 None)
           ["the quick fox"; "the fox"] "fox" 2).
  - constructor.
  - vm_compute. discriminate.
  - reflexivity.
  - simpl. lia.
  - reflexivity.
Defined.

Lemma vocab_frequency_order_witness :
  In ("the", 1)
     (Tokenizer.vocab
        (Tokenizer.build_vocab Tokenizer.space_tokenize
           (Tokenizer.init 1 10000 None) ["the quick fox"; "the fox"; "the"])) /\
  In ("quick", 3)
     (Tokenizer.vocab
        (Tokenizer.build_vocab Tokenizer.space_tokenize
           (Tokenizer.init 1 10000 None) ["the quick fox"; "the fox"; "the"])) /\
  1 <= 3.
Proof.
  assert (H1 : In ("the", 1)
     (Tokenizer.vocab
        (Tokenizer.build_vocab Tokenizer.space_tokenize
           (Tokenizer.init 1 10000 None) ["the quick fox"; "the fox"; "the"])))
    by (vm_compute; left; reflexivity).
  assert (H2 : In ("quick", 3)
     (Tokenizer.vocab
        (Tokenizer.build_vocab Tokenizer.space_tokenize
           (Tokenizer.init 1 10000 None) ["the quick fox"; "the fox"; "the"])))
    by (vm_compute; right; right; left; reflexivity).
  split; [exact H1|]. split; [exact H2|].
  apply (vocab_frequency_order Tokenizer.space_tokenize
           (Tokenizer.init 1 10000 None) ["the quick fox"; "the fox"; "the"]
           "the" "quick" 1 3 3 1).
  - constructor.
  - exact H1.
  - exact H2.
  - lia.
  - reflexivity.
  - reflexivity.
Defined.

Lemma extract_text_monotone_witness :
  In "z"
     (JsonScraper.extract_text
        (JsonScraper.JObject
           [("a", JsonScraper.JString "x");
            ("b", JsonScraper.JArray
                    [JsonScraper.JString "y";
                     JsonScraper.JObject [("a", JsonScraper.JString "z")]])])
        (Some ["a"; "b"])) /\
  In "z"
     (JsonScraper.extract_text
        (JsonScraper.JObject
           [("a", JsonScraper.JString "x");
            ("b", JsonScraper.JArray
                    [JsonScraper.JString "y";
                     JsonScraper.JObject [("a", JsonScraper.JString "z")]])])
        None).
Proof.
  assert (H : In "z"
     (JsonScraper.extract_text
        (JsonScraper.JObject
           [("a", JsonScraper.JString "x");
            ("b", JsonScraper.JArray
                    [JsonScraper.JString "y";
                     JsonScraper.JObject [("a", JsonScraper.JString "z")]])])
        (Some ["a"; "b"]))) by (vm_compute; right; left; reflexivity).
  split; [exact H|].
  apply (extract_text_monotone _ (Some ["a"; "b"]) None "z");
    [reflexivity | exact H].
Defined.

Lemma get_top_terms_bounded_witness :
  Vectorizer.get_top_terms
    (fun _ => Ok [[0; 1 # 2; 0; 1 # 3]%Q]) (fun _ => [0; 2; 3; 1])
    (Some ["a"; "b"; "c"; "d"]) "b d" 1
  = (Ok [("b", (1 # 2)%Q)], []) /\
  Z.of_nat (length [("b", (1 # 2)%Q)]) <= 1 /\
  exists vector rest,
    Ok [[0; 1 # 2; 0; 1 # 3]%Q] = Ok (vector :: rest) /\
    Forall (fun term => (0 < snd term)%Q /\ In (snd term) vector)
           [("b", (1 # 2)%Q)].
Proof.
  assert (H : Vectorizer.get_top_terms
    (fun _ => Ok [[0; 1 # 2; 0; 1 # 3]%Q]) (fun _ => [0; 2; 3; 1])
    (Some ["a"; "b"; "c"; "d"]) "b d" 1
  = (Ok [("b", (1 # 2)%Q)], [])) by reflexivity.
  split; [exact H|].
  apply (get_top_terms_bounded
           (fun _ => Ok [[0; 1 # 2; 0; 1 # 3]%Q]) (fun _ => [0; 2; 3; 1])
           (Some ["a"; "b"; "c"; "d"]) "b d" 1 _ [] ltac:(lia) H).
Defined.

Lemma get_top_terms_zero_witness :
  Vectorizer.get_top_terms
    (fun _ => Ok [[0; 1 # 2; 0; 1 # 3]%Q]) (fun _ => [0; 2; 3; 1])
    (Some ["a"; "b"; "c"; "d"]) "b d" 0
  = (Ok [("b", (1 # 2)%Q); ("d", (1 # 3)%Q)], []) /\
  Vectorizer.get_top_terms
    (fun _ => Ok [[0; 1 # 2; 0; 1 # 3]%Q]) (fun _ => [0; 2; 3; 1])
    (Some ["a"; "b"; "c"; "d"]) "b d" 0
  = Vectorizer.get_top_terms
      (fun _ => Ok [[0; 1 # 2; 0; 1 # 3]%Q]) (fun _ => [0; 2; 3; 1])
      (Some ["a"; "b"; "c"; "d"]) "b d" 4.
Proof.
  split; [reflexivity|].
  apply (get_top_terms_zero
           (fun _ => Ok [[0; 1 # 2; 0; 1 # 3]%Q]) (fun _ => [0; 2; 3; 1])
           (Some ["a"; "b"; "c"; "d"]) "b d" 4 [0; 1 # 2; 0; 1 # 3]%Q []);
    [reflexivity | simpl; lia].
Defined.
